(** * Upbit listings bot: change detection and notification engine

    A shallow embedding of [src/1.py].  Python sets are [gset string], the
    JSON records of the market catalogue are [gmap string string], the two
    cache files are values of type [file], and the effectful functions live
    in a small state-and-exception monad over the process state. *)

From stdpp Require Import gmap strings list sorting.
From Stdlib Require Import String Ascii.

Local Open Scope string_scope.

(** ** Text helpers *)

(** [p.rstrip('-')]: drop every trailing dash. *)
Fixpoint rstrip_dash (s : string) : string :=
  match s with
  | EmptyString => EmptyString
  | String c r =>
      match rstrip_dash r with
      | EmptyString => if Ascii.eqb c "-" then EmptyString else String c EmptyString
      | r' => String c r'
      end
  end.

(** [sorted(...)] on strings: Python orders [str] by code point, which on
    UTF-8 encoded text is the bytewise lexicographic order of [String.leb]. *)
Definition str_le (a b : string) : Prop := String.leb a b = true.

#[global] Instance str_le_dec : RelDecision str_le.
Proof. intros a b. unfold str_le. apply _. Defined.

Definition py_sorted (l : list string) : list string := merge_sort str_le l.

(** [sorted(X)] for a set [X]. *)
Definition sorted_set (X : gset string) : list string := py_sorted (elements X).

(** ** Exceptions and results *)

Inductive exn :=
| Timeout            (* requests.Timeout, a RequestException *)
| RequestException   (* any other requests failure, HTTPError included *)
| KeyError (key : string)
| OSError
| TelegramError
| RuntimeError.

Inductive result (A : Type) :=
| Ok (a : A)
| Raise (e : exn).
Arguments Ok {A} a.
Arguments Raise {A} e.

Definition rbind {A B} (r : result A) (k : A → result B) : result B :=
  match r with
  | Ok a => k a
  | Raise e => Raise e
  end.

(** ** Data model *)

(** One object of the catalogue's JSON array. *)
Abbreviation market_record := (gmap string string).

(** [{"id": uniq, "title": title, "url": href}] *)
Record notice := { n_id : string; n_title : string; n_url : string }.

#[global] Instance notice_eq_dec : EqDecision notice.
Proof. solve_decision. Defined.

(** An [<a href=...>] element as the HTML parser hands it over. *)
Record anchor := { a_text : string; a_href : string }.

(** A cache file on disk: absent, present but not valid JSON, or a JSON
    object whose values are lists of strings, the shape [save_cache] is
    given by the program.  Valid JSON of another shape is outside this
    type: on such a document the lines of [main_loop] that read the caches
    can raise, and nothing below speaks of it. *)
Inductive file :=
| Missing
| Corrupt
| Json (doc : gmap string (list string)).

Inductive path := CACHE_FILE | NOTICES_CACHE_FILE.

(** History of notifier activity.  [NotifyNewMarkets] and [NotifyNewNotices]
    record the argument of each call of the two notify functions; [BotSend]
    records a call of [bot.send_message] and whether it returned normally.
    The program never reads the journal. *)
Inductive event :=
| NotifyNewMarkets (new_markets : list string)
| NotifyNewNotices (new_items : list notice)
| BotSend (text : string) (delivered : bool).

(** Process state: the two cache files, the module globals [last_cycle_ok]
    and [last_cycle_at], the locals [known_markets] and [known_notice_ids]
    of [main_loop], and the journal. *)
Record state := {
  cache_file : file;
  notices_cache_file : file;
  last_cycle_ok : bool;
  last_cycle_at : option string;
  known_markets : gset string;
  known_notice_ids : gset string;
  journal : list event
}.

(** What the outside world answers during one pass (one cycle of the loop,
    or the start-up sequence). *)
Inductive write_outcome :=
| Written     (* open and dump both succeed *)
| OpenFails   (* open(path, "w") raises: the file is left as it was *)
| DumpFails.  (* the file was truncated, then the write raised *)

Record cycle_env := {
  markets_resp : exn + list market_record;   (* HTTP.get + raise_for_status + r.json() *)
  notices_resp : exn + list anchor;          (* HTTP.get + raise_for_status + find_all *)
  write_markets : write_outcome;
  write_notices : write_outcome;
  sink : string → bool;                      (* does bot.send_message(text) return? *)
  now : string                               (* datetime.now(timezone.utc).isoformat() *)
}.

(** Settings read from the environment at import time. *)
Record config := {
  CHAT_ID : option string;
  FILTER_MARKETS : list string
}.

(** Library functions on Unicode text that are used, not re-implemented. *)
Record runtime := {
  str_upper : string → string;              (* str.upper *)
  str_strip : string → string;              (* str.strip *)
  listing_intent : string → bool;           (* re.search of the listing keywords, re.I *)
  NOTICE_MARKET_PATTERN : string → bool;    (* NOTICE_MARKET_PATTERN.search *)
  sha256_hexdigest : string → string        (* hashlib.sha256(s.encode("utf-8")).hexdigest() *)
}.

Definition UPBIT_MARKETS_URL : string := "https://api.upbit.com/v1/market/all".

(** ** State updates *)

Definition set_file (p : path) (f : file) (s : state) : state :=
  match p with
  | CACHE_FILE =>
      {| cache_file := f; notices_cache_file := notices_cache_file s;
         last_cycle_ok := last_cycle_ok s; last_cycle_at := last_cycle_at s;
         known_markets := known_markets s; known_notice_ids := known_notice_ids s;
         journal := journal s |}
  | NOTICES_CACHE_FILE =>
      {| cache_file := cache_file s; notices_cache_file := f;
         last_cycle_ok := last_cycle_ok s; last_cycle_at := last_cycle_at s;
         known_markets := known_markets s; known_notice_ids := known_notice_ids s;
         journal := journal s |}
  end.

Definition get_file (p : path) (s : state) : file :=
  match p with
  | CACHE_FILE => cache_file s
  | NOTICES_CACHE_FILE => notices_cache_file s
  end.

Definition set_known_markets (X : gset string) (s : state) : state :=
  {| cache_file := cache_file s; notices_cache_file := notices_cache_file s;
     last_cycle_ok := last_cycle_ok s; last_cycle_at := last_cycle_at s;
     known_markets := X; known_notice_ids := known_notice_ids s;
     journal := journal s |}.

Definition set_known_notice_ids (X : gset string) (s : state) : state :=
  {| cache_file := cache_file s; notices_cache_file := notices_cache_file s;
     last_cycle_ok := last_cycle_ok s; last_cycle_at := last_cycle_at s;
     known_markets := known_markets s; known_notice_ids := X;
     journal := journal s |}.

Definition record_event (ev : event) (s : state) : state :=
  {| cache_file := cache_file s; notices_cache_file := notices_cache_file s;
     last_cycle_ok := last_cycle_ok s; last_cycle_at := last_cycle_at s;
     known_markets := known_markets s; known_notice_ids := known_notice_ids s;
     journal := journal s ++ [ev] |}.

(** ** The monad of the stateful functions *)

Definition M (A : Type) : Type := state → result A * state.

Definition ret {A} (a : A) : M A := λ s, (Ok a, s).

Definition raise {A} (e : exn) : M A := λ s, (Raise e, s).

Definition bind {A B} (m : M A) (k : A → M B) : M B :=
  λ s, match m s with
       | (Ok a, s') => k a s'
       | (Raise e, s') => (Raise e, s')
       end.

(** [try: body / except Exception as e: handler]; the handler starts from
    the state the body left behind. *)
Definition try_except {A} (body : M A) (handler : exn → M A) : M A :=
  λ s, match body s with
       | (Ok a, s') => (Ok a, s')
       | (Raise e, s') => handler e s'
       end.

Definition lift {A} (r : result A) : M A := λ s, (r, s).

Definition gets {A} (f : state → A) : M A := λ s, (Ok (f s), s).

Definition modify (f : state → state) : M unit := λ s, (Ok tt, f s).

Notation "'let*' x ':=' m 'in' k" := (bind m (λ x, k))
  (at level 10, x name, m at level 100, k at level 200).
Notation "'let*' ' p ':=' m 'in' k" := (bind m (λ x, match x with p => k end))
  (at level 10, p pattern, m at level 100, k at level 200).
Notation "m ';;' k" := (bind m (λ _, k))
  (at level 100, k at level 200, right associativity).

(** ** HEALTH *)

Definition health (cfg : config) (s : state) : bool * option string * list string :=
  (last_cycle_ok s, last_cycle_at s, FILTER_MARKETS cfg).

Definition mark_ok (env : cycle_env) (s : state) : state :=
  {| cache_file := cache_file s; notices_cache_file := notices_cache_file s;
     last_cycle_ok := true; last_cycle_at := Some (now env);
     known_markets := known_markets s; known_notice_ids := known_notice_ids s;
     journal := journal s |}.

Definition mark_fail (s : state) : state :=
  {| cache_file := cache_file s; notices_cache_file := notices_cache_file s;
     last_cycle_ok := false; last_cycle_at := last_cycle_at s;
     known_markets := known_markets s; known_notice_ids := known_notice_ids s;
     journal := journal s |}.

(** ** Utilities *)

Definition load_cache (p : path) (default : gmap string (list string)) (s : state)
  : gmap string (list string) :=
  match get_file p s with
  | Json doc => doc
  | Missing | Corrupt => default
  end.

Definition save_cache (outcome : write_outcome) (p : path)
    (data : gmap string (list string)) : M unit :=
  match outcome with
  | Written => modify (set_file p (Json data))
  | OpenFails => raise OSError
  | DumpFails => modify (set_file p Corrupt) ;; raise OSError
  end.

Definition os_path_exists (p : path) (s : state) : bool :=
  match get_file p s with
  | Missing => false
  | Corrupt | Json _ => true
  end.

(** [not CHAT_ID]: unset or empty. *)
Definition chat_id_empty (cfg : config) : bool :=
  match CHAT_ID cfg with
  | None => true
  | Some c => if decide (c = "") then true else false
  end.

Definition bot_send_message (env : cycle_env) (text : string) : M unit :=
  if sink env text
  then modify (record_event (BotSend text true))
  else modify (record_event (BotSend text false)) ;; raise TelegramError.

Definition send_message (cfg : config) (env : cycle_env) (text : string) : M unit :=
  if chat_id_empty cfg then ret tt
  else try_except (bot_send_message env text) (λ _, ret tt).

(** ** Data sources *)

Definition fetch_markets (env : cycle_env) : M (list market_record) :=
  match markets_resp env with
  | inl e => raise e
  | inr markets => ret markets
  end.

Section Engine.

Variable rt : runtime.
Variable cfg : config.

(** The body of the loop over the anchors of the notice page: the item an
    anchor contributes, if any. *)
Definition notice_of_anchor (a : anchor) : option notice :=
  let title := str_strip rt (a_text a) in
  let href := a_href a in
  if bool_decide (title = "") || bool_decide (href = "") then None
  else
    let href := if String.prefix "/" href then "https://upbit.com" ++ href else href in
    if listing_intent rt title then
      if negb (NOTICE_MARKET_PATTERN rt title) then None
      else
        let uniq := String.substring 0 16 (sha256_hexdigest rt (title ++ "|" ++ href)) in
        Some {| n_id := uniq; n_title := title; n_url := href |}
    else None.

Definition fetch_listing_notices (env : cycle_env) : M (list notice) :=
  match notices_resp env with
  | inl Timeout => ret []
  | inl RequestException => ret []
  | inl e => raise e
  | inr anchors => ret (omap notice_of_anchor anchors)
  end.

(** ** Logic *)

(** [m["market"]] *)
Definition market_of (m : market_record) : result string :=
  match m !! "market" with
  | Some code => Ok code
  | None => Raise (KeyError "market")
  end.

(** [m["market"] for m in markets], left to right. *)
Fixpoint market_codes (markets : list market_record) : result (list string) :=
  match markets with
  | [] => Ok []
  | m :: rest =>
      rbind (market_of m) (λ code,
      rbind (market_codes rest) (λ codes, Ok (code :: codes)))
  end.

Definition detect_new_markets (old_set : gset string) (markets : list market_record)
  : result (list string * gset string) :=
  rbind (market_codes markets) (λ codes,
    let current : gset string := list_to_set codes in
    Ok (sorted_set (current ∖ old_set), current)).

Definition _passes_prefix_filter (market_code : string) : bool :=
  let up := str_upper rt market_code in
  existsb (λ pref, String.prefix pref up) (FILTER_MARKETS cfg).

(** [{m["market"]: m for m in markets}]: a later record replaces an earlier
    one with the same code. *)
Fixpoint market_info (markets : list market_record) (info : gmap string market_record)
  : result (gmap string market_record) :=
  match markets with
  | [] => Ok info
  | m :: rest => rbind (market_of m) (λ code, market_info rest (<[code := m]> info))
  end.

(** One pass of the loop over [filtered]: [info[mk]] and the two [.get]. *)
Definition market_line (info : gmap string market_record) (mk : string) : result string :=
  match info !! mk with
  | None => Raise (KeyError mk)
  | Some m =>
      let eng := default "" (m !! "english_name") in
      let kor := default "" (m !! "korean_name") in
      Ok ("• " ++ mk ++ " — " ++ eng ++ " / " ++ kor)
  end.

Fixpoint market_lines (info : gmap string market_record) (filtered : list string)
  : result (list string) :=
  match filtered with
  | [] => Ok []
  | mk :: rest =>
      rbind (market_line info mk) (λ line,
      rbind (market_lines info rest) (λ lines, Ok (line :: lines)))
  end.

Definition markets_text (lines : list string) : string :=
  "🆕 Upbit: новые рынки (" ++ String.concat "," (map rstrip_dash (FILTER_MARKETS cfg)) ++ ")
" ++ String.concat "
" lines ++ "

Источник API: " ++ UPBIT_MARKETS_URL.

(** Everything [notify_new_markets] does before the send: [None] when the
    filtered list is empty, otherwise the text of the message. *)
Definition new_markets_message (new_markets : list string) (markets : list market_record)
  : result (option string) :=
  let filtered := filter (λ mk, _passes_prefix_filter mk = true) new_markets in
  match filtered with
  | [] => Ok None
  | _ =>
      rbind (market_info markets ∅) (λ info,
      rbind (market_lines info filtered) (λ lines,
      Ok (Some (markets_text lines))))
  end.

(** The first line only records the call in the journal. *)
Definition notify_new_markets (env : cycle_env) (new_markets : list string)
    (markets : list market_record) : M unit :=
  modify (record_event (NotifyNewMarkets new_markets)) ;;
  let* msg := lift (new_markets_message new_markets markets) in
  match msg with
  | None => ret tt
  | Some text => send_message cfg env text
  end.

Definition notice_line (it : notice) : string :=
  "• " ++ n_title it ++ "
  " ++ n_url it.

Definition notices_text (new_items : list notice) : string :=
  "📢 Upbit: новое объявление о листинге (KRW/USDT):
" ++ String.concat "

" (map notice_line new_items).

(** The first line only records the call in the journal. *)
Definition notify_new_notices (env : cycle_env) (new_items : list notice) : M unit :=
  modify (record_event (NotifyNewNotices new_items)) ;;
  match new_items with
  | [] => ret tt
  | _ => send_message cfg env (notices_text new_items)
  end.

Definition markets_doc (codes : list string) : gmap string (list string) :=
  {[ "markets" := codes ]}.

Definition ids_doc (ids : list string) : gmap string (list string) :=
  {[ "ids" := ids ]}.

Definition bootstrap_baseline (env : cycle_env) : M unit :=
  try_except
    (let* markets := fetch_markets env in
     let* codes := lift (market_codes markets) in
     let current_markets := sorted_set (list_to_set codes) in
     save_cache (write_markets env) CACHE_FILE (markets_doc current_markets))
    (λ _, ret tt) ;;
  try_except
    (let* notices := fetch_listing_notices env in
     let ids := sorted_set (list_to_set (map n_id notices)) in
     save_cache (write_notices env) NOTICES_CACHE_FILE (ids_doc ids))
    (λ _, ret tt).

(** ** The poll loop *)

(** The lines of [main_loop] before [while True]. *)
Definition main_loop_init (env : cycle_env) : M unit :=
  let* markets_cache := gets (load_cache CACHE_FILE (markets_doc [])) in
  modify (set_known_markets (list_to_set (default [] (markets_cache !! "markets")))) ;;
  let* notices_cache := gets (load_cache NOTICES_CACHE_FILE (ids_doc [])) in
  modify (set_known_notice_ids (list_to_set (default [] (notices_cache !! "ids")))) ;;
  send_message cfg env "🚀 Upbit бот запущен".

(** Step 1 of the loop body; the result is [markets_ok]. *)
Definition markets_step (env : cycle_env) : M bool :=
  try_except
    (let* markets := fetch_markets env in
     let* old_set := gets known_markets in
     let* '(new_markets, current) := lift (detect_new_markets old_set markets) in
     match new_markets with
     | [] => ret tt
     | _ =>
         notify_new_markets env new_markets markets ;;
         modify (set_known_markets current) ;;
         let* known := gets known_markets in
         save_cache (write_markets env) CACHE_FILE (markets_doc (sorted_set known))
     end ;;
     ret true)
    (λ _, ret false).

(** Step 2 of the loop body; the result is [notices_ok]. *)
Definition notices_step (env : cycle_env) : M bool :=
  try_except
    (let* notices := fetch_listing_notices env in
     let* known := gets known_notice_ids in
     let fresh := filter (λ n, n_id n ∉ known) notices in
     match fresh with
     | [] => ret tt
     | _ =>
         notify_new_notices env fresh ;;
         modify (λ s, set_known_notice_ids
                        (known_notice_ids s ∪ list_to_set (map n_id fresh)) s) ;;
         let* known := gets known_notice_ids in
         save_cache (write_notices env) NOTICES_CACHE_FILE (ids_doc (sorted_set known))
     end ;;
     ret true)
    (λ _, ret false).

(** One pass of the [while True] body (the sleep aside). *)
Definition cycle_body (env : cycle_env) : M unit :=
  let* markets_ok := markets_step env in
  let* notices_ok := notices_step env in
  if markets_ok then modify (mark_ok env) else modify mark_fail.

Definition cycle (env : cycle_env) (s : state) : state := snd (cycle_body env s).

(** The loop over a finite prefix of the answers of the outside world. *)
Definition run (envs : list cycle_env) (s : state) : state :=
  foldl (λ s env, cycle env s) s envs.

(** ** Start-up *)

(** The condition of the [if] under [__main__]. *)
Definition cache_not_found (s : state) : bool :=
  negb (os_path_exists CACHE_FILE s) || negb (os_path_exists NOTICES_CACHE_FILE s).

Definition startup (env : cycle_env) : M unit :=
  let* missing := gets cache_not_found in
  (if missing then bootstrap_baseline env else ret tt) ;;
  main_loop_init env.

(** The process right after import: status globals at their initial
    values, nothing known, nothing sent. *)
Definition initial_state (markets_file notices_file : file) : state :=
  {| cache_file := markets_file; notices_cache_file := notices_file;
     last_cycle_ok := true; last_cycle_at := None;
     known_markets := ∅; known_notice_ids := ∅; journal := [] |}.

End Engine.

(** ** Settings *)

(** [s.split(",")]: the pieces between the commas, at least one. *)
Fixpoint split_comma (s : string) : list string :=
  match s with
  | EmptyString => [EmptyString]
  | String c r =>
      if Ascii.eqb c ","
      then EmptyString :: split_comma r
      else match split_comma r with
           | piece :: pieces => String c piece :: pieces
           | [] => [String c EmptyString]
           end
  end.

(** [[p.strip().upper() + "-" for p in raw.split(",") if p.strip()]] *)
Definition parse_filter_markets (rt : runtime) (raw : string) : list string :=
  map (λ p, str_upper rt (str_strip rt p) ++ "-")
      (filter (λ p, str_strip rt p ≠ "") (split_comma raw)).

(** The two settings of the engine, from [os.getenv("TG_CHAT_ID")] and
    [os.getenv("FILTER_MARKETS", "KRW,USDT")]. *)
Definition load_config (rt : runtime) (tg_chat_id filter_markets : option string)
  : config :=
  {| CHAT_ID := tg_chat_id;
     FILTER_MARKETS := parse_filter_markets rt (default "KRW,USDT" filter_markets) |}.

(** ** A runtime for concrete runs

    The theorems below hold for every [runtime].  To run the engine on
    concrete inputs this instance spells the library functions out for
    text whose letters and white space are ASCII, where they agree with
    Python's; the digest is a stand-in for SHA-256. *)

Definition ascii_upper (c : ascii) : ascii :=
  let n := nat_of_ascii c in
  if (97 <=? n)%nat && (n <=? 122)%nat then ascii_of_nat (n - 32) else c.

Fixpoint upper (s : string) : string :=
  match s with
  | EmptyString => EmptyString
  | String c r => String (ascii_upper c) (upper r)
  end.

Definition is_space (c : ascii) : bool :=
  let n := nat_of_ascii c in
  ((9 <=? n)%nat && (n <=? 13)%nat) || ((28 <=? n)%nat && (n <=? 32)%nat).

Fixpoint lstrip (s : string) : string :=
  match s with
  | EmptyString => EmptyString
  | String c r => if is_space c then lstrip r else s
  end.

Fixpoint rstrip (s : string) : string :=
  match s with
  | EmptyString => EmptyString
  | String c r =>
      match rstrip r with
      | EmptyString => if is_space c then EmptyString else String c EmptyString
      | r' => String c r'
      end
  end.

Definition strip (s : string) : string := rstrip (lstrip s).

(** [a] occurs in [s], then any white space, then [b]; letters compared
    without case. *)
Fixpoint search_pair (a b s : string) : bool :=
  (String.prefix (upper a) (upper s)
   && String.prefix (upper b)
        (upper (lstrip (String.substring (String.length a) (String.length s) s))))
  || match s with
     | EmptyString => false
     | String _ r => search_pair a b r
     end.

Definition search (a s : string) : bool := search_pair a "" s.

Definition ascii_runtime : runtime :=
  {| str_upper := upper;
     str_strip := strip;
     listing_intent := λ t,
       search "상장" t || search "리스트" t || search "listing" t
       || search_pair "마켓" "추가" t || search_pair "market" "support" t
       || search_pair "new" "listing" t;
     NOTICE_MARKET_PATTERN := λ t,
       search "KRW" t || search "원화" t || search "USDT" t
       || search "테더" t || search "유에스디티" t;
     sha256_hexdigest := λ s, s |}.

(** * Vocabulary of the statements

    Derived notions used to state the properties: none of them is part
    of the program. *)

(** ** States, journals and frames *)

(** [s] with [evs] appended to its journal. *)
Definition log_events (evs : list event) (s : state) : state :=
  {| cache_file := cache_file s; notices_cache_file := notices_cache_file s;
     last_cycle_ok := last_cycle_ok s; last_cycle_at := last_cycle_at s;
     known_markets := known_markets s; known_notice_ids := known_notice_ids s;
     journal := journal s ++ evs |}.

(** Running [m] relates the state before to the state after by [R],
    whether [m] returns or raises. *)
Definition preserves {A} (R : relation state) (m : M A) : Prop :=
  ∀ s, R s (snd (m s)).

(** Frames: what a piece of the program leaves alone, or only grows. *)
Definition same_markets_side (s s' : state) : Prop :=
  known_markets s' = known_markets s ∧ cache_file s' = cache_file s.

Definition same_notices_side (s s' : state) : Prop :=
  known_notice_ids s' = known_notice_ids s ∧ notices_cache_file s' = notices_cache_file s.

Definition same_status (s s' : state) : Prop :=
  last_cycle_ok s' = last_cycle_ok s ∧ last_cycle_at s' = last_cycle_at s.

Definition same_journal (s s' : state) : Prop := journal s' = journal s.

Definition notice_ids_grow (s s' : state) : Prop :=
  known_notice_ids s ⊆ known_notice_ids s'.

Definition journal_grows (s s' : state) : Prop := journal s `prefix_of` journal s'.

(** Equal in everything but the journal. *)
Definition same_but_journal (s s' : state) : Prop :=
  cache_file s = cache_file s'
  ∧ notices_cache_file s = notices_cache_file s'
  ∧ last_cycle_ok s = last_cycle_ok s'
  ∧ last_cycle_at s = last_cycle_at s'
  ∧ known_markets s = known_markets s'
  ∧ known_notice_ids s = known_notice_ids s'.

(** The market documents a cycle can leave behind. *)
Definition markets_doc_outcome (s s1 : state) : Prop :=
  cache_file s1 = cache_file s
  ∨ cache_file s1 = Corrupt
  ∨ cache_file s1 = Json (markets_doc (sorted_set (known_markets s1))).

(** The notice documents a cycle can leave behind. *)
Definition notices_doc_outcome (s s1 : state) : Prop :=
  notices_cache_file s1 = notices_cache_file s
  ∨ notices_cache_file s1 = Corrupt
  ∨ notices_cache_file s1 = Json (ids_doc (sorted_set (known_notice_ids s1))).

(** The known-market set after a cycle: as before, or the code set of the
    fetch of this cycle. *)
Definition markets_replaced (env : cycle_env) (s s1 : state) : Prop :=
  known_markets s1 = known_markets s
  ∨ ∃ markets codes,
      markets_resp env = inr markets
      ∧ market_codes markets = Ok codes
      ∧ known_markets s1 = list_to_set codes.

(** Every id that was passed to [notify_new_notices] is known. *)
Definition notified_ids_known (s : state) : Prop :=
  ∀ items n, NotifyNewNotices items ∈ journal s → n ∈ items →
             n_id n ∈ known_notice_ids s.

(** The line of the message for [mk], given the record [info[mk]]. *)
Definition line_of (m : market_record) (mk : string) : string :=
  "• " ++ mk ++ " — " ++ default "" (m !! "english_name")
       ++ " / " ++ default "" (m !! "korean_name").

(** The same pass with another answer of the notice page and another
    outcome of the write of the notice document. *)
Definition with_notices (r : exn + list anchor) (w : write_outcome) (env : cycle_env)
  : cycle_env :=
  {| markets_resp := markets_resp env; notices_resp := r;
     write_markets := write_markets env; write_notices := w;
     sink := sink env; now := now env |}.

(** The same pass with another behaviour of the notification sink. *)
Definition with_sink (f : string → bool) (env : cycle_env) : cycle_env :=
  {| markets_resp := markets_resp env; notices_resp := notices_resp env;
     write_markets := write_markets env; write_notices := write_notices env;
     sink := f; now := now env |}.

(** The exception [fetch_listing_notices] lets through, if any. *)
Definition notices_fetch_raises (env : cycle_env) : option exn :=
  match notices_resp env with
  | inl Timeout | inl RequestException | inr _ => None
  | inl e => Some e
  end.

Section Vocabulary.

Variable rt : runtime.
Variable cfg : config.

(** What [send_message] appends to the journal. *)
Definition send_events (env : cycle_env) (text : string) : list event :=
  if chat_id_empty cfg then [] else [BotSend text (sink env text)].

(** What [notify_new_markets] appends, [msg] being the message it built. *)
Definition new_markets_events (env : cycle_env) (new_markets : list string)
    (msg : option string) : list event :=
  NotifyNewMarkets new_markets
  :: match msg with None => [] | Some text => send_events env text end.

(** What [notify_new_notices] appends. *)
Definition new_notices_events (env : cycle_env) (new_items : list notice) : list event :=
  NotifyNewNotices new_items
  :: match new_items with [] => [] | _ => send_events env (notices_text new_items) end.

(** The state once [known_markets = current] has been executed. *)
Definition after_new_markets env new_markets current msg (s : state) : state :=
  set_known_markets current (log_events (new_markets_events env new_markets msg) s).

(** The items [fetch_listing_notices] returns when it returns. *)
Definition fetched_notices (env : cycle_env) : list notice :=
  match notices_resp env with
  | inr anchors => omap (notice_of_anchor rt) anchors
  | inl _ => []
  end.

(** [fresh] in the notice step started from [s]. *)
Definition fresh_notices (env : cycle_env) (s : state) : list notice :=
  filter (λ n, n_id n ∉ known_notice_ids s) (fetched_notices env).

(** The state once [known_notice_ids |= ...] has been executed. *)
Definition after_fresh_notices env (fresh : list notice) (s : state) : state :=
  set_known_notice_ids (known_notice_ids s ∪ list_to_set (map n_id fresh))
    (log_events (new_notices_events env fresh) s).

(** [markets_ok] at the end of the loop body. *)
Definition markets_ok (env : cycle_env) (s : state) : bool :=
  match (markets_step rt cfg env s).1 with
  | Ok b => b
  | Raise _ => false
  end.

End Vocabulary.

(** The time stamp of the last cycle of [envs] whose market step
    succeeded, [acc] if there is none. *)
Fixpoint last_success_at (rt : runtime) (cfg : config) (envs : list cycle_env)
    (s : state) (acc : option string) : option string :=
  match envs with
  | [] => acc
  | env :: rest =>
      last_success_at rt cfg rest (cycle rt cfg env s)
        (if markets_ok rt cfg env s then Some (now env) else acc)
  end.

(** ** Concrete inputs *)

(** A record of the catalogue with its three usual fields. *)
Definition catalogue_entry (code english korean : string) : market_record :=
  {[ "market" := code; "english_name" := english; "korean_name" := korean ]}.

(** The filter scenario of the specification: prefixes, fetch, baseline. *)
Definition filter_cfg : config :=
  {| CHAT_ID := Some "-1001"; FILTER_MARKETS := ["KRW-"; "USDT-"] |}.

Definition filter_env : cycle_env :=
  {| markets_resp := inr [ catalogue_entry "KRW-BTC" "Bitcoin" "비트코인";
                           catalogue_entry "KRW-ETH" "Ethereum" "이더리움";
                           catalogue_entry "JPY-XRP" "Ripple" "리플" ];
     notices_resp := inr [];
     write_markets := Written;
     write_notices := Written;
     sink := λ _, true;
     now := "2024-05-01T00:00:00+00:00" |}.

Definition filter_state : state :=
  {| cache_file := Json (markets_doc ["KRW-BTC"]);
     notices_cache_file := Json (ids_doc []);
     last_cycle_ok := true; last_cycle_at := None;
     known_markets := {[ "KRW-BTC" ]}; known_notice_ids := ∅;
     journal := [] |}.

(** A pass during which the catalogue endpoint is unreachable. *)
Definition outage_env : cycle_env :=
  {| markets_resp := inl RequestException;
     notices_resp := inr [];
     write_markets := Written;
     write_notices := Written;
     sink := λ _, true;
     now := "2024-05-01T00:01:00+00:00" |}.

(** Start-up with the market document on disk and no notice document. *)
Definition half_seeded_state : state :=
  initial_state (Json (markets_doc ["KRW-BTC"])) Missing.

(** Two passes: KRW-AAA and KRW-BBB are listed, then KRW-AAA is gone and
    KRW-CCC appears. *)
Definition delisting_env_1 : cycle_env :=
  {| markets_resp := inr [ catalogue_entry "KRW-AAA" "Alpha" "알파";
                           catalogue_entry "KRW-BBB" "Beta" "베타" ];
     notices_resp := inr [];
     write_markets := Written; write_notices := Written;
     sink := λ _, true;
     now := "2024-05-01T00:00:00+00:00" |}.

Definition delisting_env_2 : cycle_env :=
  {| markets_resp := inr [ catalogue_entry "KRW-BBB" "Beta" "베타";
                           catalogue_entry "KRW-CCC" "Gamma" "감마" ];
     notices_resp := inr [];
     write_markets := Written; write_notices := Written;
     sink := λ _, true;
     now := "2024-05-01T00:01:00+00:00" |}.

(** Both documents present and empty, nothing known. *)
Definition empty_baseline_state : state :=
  initial_state (Json (markets_doc [])) (Json (ids_doc [])).

(** The same announcement linked twice on the notice page, with different
    white space around the title. *)
Definition twin_anchor_1 : anchor :=
  {| a_text := "New listing: KRW market for ABC";
     a_href := "/service_center/notice?id=1" |}.

Definition twin_anchor_2 : anchor :=
  {| a_text := "  New listing: KRW market for ABC
";
     a_href := "/service_center/notice?id=1" |}.

Definition twin_env : cycle_env :=
  {| markets_resp := inr [ catalogue_entry "KRW-BTC" "Bitcoin" "비트코인" ];
     notices_resp := inr [ twin_anchor_1; twin_anchor_2 ];
     write_markets := Written; write_notices := Written;
     sink := λ _, true;
     now := "2024-05-01T00:00:00+00:00" |}.

(** The item both anchors yield under [ascii_runtime]. *)
Definition twin_notice : notice :=
  {| n_id := "New listing: KRW";
     n_title := "New listing: KRW market for ABC";
     n_url := "https://upbit.com/service_center/notice?id=1" |}.

(** ** Further vocabulary *)

(** [m] has the key ["market"]. *)
Definition has_market (m : market_record) : Prop := is_Some (m !! "market").

(** Calls of [bot.send_message] among the events [evs]. *)
Definition is_bot_send (ev : event) : bool :=
  match ev with
  | BotSend _ _ => true
  | NotifyNewMarkets _ | NotifyNewNotices _ => false
  end.

Definition bot_calls (evs : list event) : nat :=
  List.length (filter (λ ev, is_bot_send ev = true) evs).

(** The market step has nothing to report: the fetch fails, a record is
    malformed, or every fetched code is already known. *)
Definition markets_settled (env : cycle_env) (s : state) : Prop :=
  match markets_resp env with
  | inl _ => True
  | inr markets =>
      match market_codes markets with
      | Ok codes => list_to_set codes ⊆ known_markets s
      | Raise _ => True
      end
  end.

(** The notice step has nothing to report: the fetch raises, or every
    fetched id is already known. *)
Definition notices_settled (rt : runtime) (env : cycle_env) (s : state) : Prop :=
  notices_fetch_raises env = None →
  ∀ n, n ∈ fetched_notices rt env → n_id n ∈ known_notice_ids s.

(** The known sets a (re)start reads from the documents of [s]. *)
Definition stored_markets (s : state) : gset string :=
  list_to_set (default [] (load_cache CACHE_FILE (markets_doc []) s !! "markets")).

Definition stored_notice_ids (s : state) : gset string :=
  list_to_set (default [] (load_cache NOTICES_CACHE_FILE (ids_doc []) s !! "ids")).

(** Both documents hold the sorted known sets. *)
Definition in_sync (s : state) : Prop :=
  cache_file s = Json (markets_doc (sorted_set (known_markets s)))
  ∧ notices_cache_file s = Json (ids_doc (sorted_set (known_notice_ids s))).

(** A pass of the filter scenario during which the disk is read-only. *)
Definition read_only_env : cycle_env :=
  {| markets_resp := markets_resp filter_env;
     notices_resp := inr [];
     write_markets := OpenFails; write_notices := OpenFails;
     sink := λ _, true;
     now := "2024-05-01T00:03:00+00:00" |}.

(** [s] contains no comma. *)
Fixpoint no_comma (s : string) : bool :=
  match s with
  | EmptyString => true
  | String c r => negb (Ascii.eqb c ",") && no_comma r
  end.

(** What the loop over the anchors guarantees of an item, [anchors] being
    the anchors of the page. *)
Definition well_formed_notice (rt : runtime) (anchors : list anchor) (n : notice)
  : Prop :=
  n_title n ≠ ""
  ∧ n_url n ≠ ""
  ∧ String.prefix "/" (n_url n) = false
  ∧ listing_intent rt (n_title n) = true
  ∧ NOTICE_MARKET_PATTERN rt (n_title n) = true
  ∧ n_id n = String.substring 0 16 (sha256_hexdigest rt (n_title n ++ "|" ++ n_url n))
  ∧ (String.length (n_id n) ≤ 16)%nat
  ∧ ∃ a, a ∈ anchors
         ∧ n_title n = str_strip rt (a_text a)
         ∧ (n_url n = a_href a ∨ n_url n = "https://upbit.com" ++ a_href a).

(** A catalogue in which one record has lost its ["market"] key. *)
Definition broken_env : cycle_env :=
  {| markets_resp := inr [ catalogue_entry "KRW-BTC" "Bitcoin" "비트코인";
                           {[ "english_name" := "Ethereum" ]};
                           catalogue_entry "KRW-SOL" "Solana" "솔라나" ];
     notices_resp := inr [];
     write_markets := Written; write_notices := Written;
     sink := λ _, true;
     now := "2024-05-01T00:02:00+00:00" |}.

(** * Verification *)

(** ** Sorting a set *)

Lemma elem_of_py_sorted (x : string) (l : list string) : x ∈ py_sorted l ↔ x ∈ l.
Proof. unfold py_sorted. by rewrite merge_sort_Permutation. Qed.

Lemma elem_of_sorted_set (x : string) (X : gset string) : x ∈ sorted_set X ↔ x ∈ X.
Proof. unfold sorted_set. rewrite elem_of_py_sorted. apply elem_of_elements. Qed.

Lemma sorted_set_nil (X : gset string) : sorted_set X = [] ↔ X = ∅.
Proof.
  split.
  - intros E. apply set_eq. intros x. rewrite <- elem_of_sorted_set, E. set_solver.
  - intros ->. reflexivity.
Qed.

Lemma sorted_set_roundtrip (X : gset string) : list_to_set (sorted_set X) = X.
Proof. apply set_eq. intros x. by rewrite elem_of_list_to_set, elem_of_sorted_set. Qed.

(** ** Adding events to the journal *)

Lemma log_events_nil s : log_events [] s = s.
Proof. destruct s. unfold log_events. simpl. by rewrite app_nil_r. Qed.

Lemma log_events_app evs1 evs2 s :
  log_events evs2 (log_events evs1 s) = log_events (evs1 ++ evs2) s.
Proof. unfold log_events. simpl. by rewrite app_assoc. Qed.

Lemma record_event_log ev s : record_event ev s = log_events [ev] s.
Proof. reflexivity. Qed.

(** ** Frame reasoning for the monad *)

Section Preserves.

Context (R : relation state) `{!PreOrder R}.

Lemma preserves_ret {A} (a : A) : preserves R (ret a).
Proof. intros s. reflexivity. Qed.

Lemma preserves_raise {A} (e : exn) : preserves R (@raise A e).
Proof. intros s. reflexivity. Qed.

Lemma preserves_lift {A} (r : result A) : preserves R (lift r).
Proof. intros s. reflexivity. Qed.

Lemma preserves_gets {A} (f : state → A) : preserves R (gets f).
Proof. intros s. reflexivity. Qed.

Lemma preserves_modify (f : state → state) : (∀ s, R s (f s)) → preserves R (modify f).
Proof. intros H s. apply H. Qed.

Lemma preserves_run {A} (m : M A) s r s' : preserves R m → m s = (r, s') → R s s'.
Proof. intros H E. specialize (H s). by rewrite E in H. Qed.

Lemma preserves_bind {A B} (m : M A) (k : A → M B) :
  preserves R m → (∀ a, preserves R (k a)) → preserves R (bind m k).
Proof.
  intros Hm Hk s. unfold bind. specialize (Hm s).
  destruct (m s) as [[a|e] s1]; simpl in *; [|done].
  etrans; [exact Hm|apply Hk].
Qed.

Lemma preserves_try {A} (body : M A) (h : exn → M A) :
  preserves R body → (∀ e, preserves R (h e)) → preserves R (try_except body h).
Proof.
  intros Hm Hh s. unfold try_except. specialize (Hm s).
  destruct (body s) as [[a|e] s1]; simpl in *; [done|].
  etrans; [exact Hm|apply Hh].
Qed.

End Preserves.

(** The frames are preorders. *)

#[global] Instance same_markets_side_po : PreOrder same_markets_side.
Proof. split; [done|]. intros x y z [??] [??]. split; congruence. Qed.
#[global] Instance same_notices_side_po : PreOrder same_notices_side.
Proof. split; [done|]. intros x y z [??] [??]. split; congruence. Qed.
#[global] Instance same_status_po : PreOrder same_status.
Proof. split; [done|]. intros x y z [??] [??]. split; congruence. Qed.
#[global] Instance same_journal_po : PreOrder same_journal.
Proof. split; [done|]. intros x y z ??. unfold same_journal in *. congruence. Qed.
#[global] Instance notice_ids_grow_po : PreOrder notice_ids_grow.
Proof. split; [intros x|intros x y z]; unfold notice_ids_grow; set_solver. Qed.
#[global] Instance journal_grows_po : PreOrder journal_grows.
Proof.
  split; [intros x|intros x y z]; unfold journal_grows; [done|].
  intros ??. by etrans.
Qed.

(** Breaks a frame goal down along the structure of the program. *)
Ltac frame_step :=
  match goal with
  | |- preserves _ (bind _ _) => apply preserves_bind; [apply _| |intros ?]
  | |- preserves _ (try_except _ _) => apply preserves_try; [apply _| |intros ?]
  | |- preserves _ (ret _) => apply preserves_ret; apply _
  | |- preserves _ (raise _) => apply preserves_raise; apply _
  | |- preserves _ (lift _) => apply preserves_lift; apply _
  | |- preserves _ (gets _) => apply preserves_gets; apply _
  | |- preserves _ (modify _) => apply preserves_modify; intros ?
  | |- preserves _ (match ?x with _ => _ end) => destruct x
  | |- preserves _ (if ?x then _ else _) => destruct x
  end.

Ltac frame_leaf :=
  unfold same_markets_side, same_notices_side, same_status,
    same_journal, notice_ids_grow, journal_grows;
  simpl;
  first [ done | set_solver | by apply prefix_app_r | by eexists ].

Ltac frame_side := first [ apply _ | intros; frame_leaf ].

Ltac frame :=
  repeat first [ progress cbv beta iota | frame_step ];
  try frame_leaf.

Section EngineFacts.

Variable rt : runtime.
Variable cfg : config.

(** ** The market diff and the message built from it *)

Lemma market_info_ok (markets : list market_record) (codes : list string) :
  market_codes markets = Ok codes →
  ∀ info, ∃ info',
    market_info markets info = Ok info'
    ∧ (∀ c, c ∈ codes → is_Some (info' !! c))
    ∧ (∀ c, is_Some (info !! c) → is_Some (info' !! c))
    ∧ (∀ c m, info' !! c = Some m →
         info !! c = Some m ∨ (m ∈ markets ∧ m !! "market" = Some c)).
Proof.
  revert codes. induction markets as [|m rest IH]; intros codes Hc info; simpl in *.
  - injection Hc as <-. exists info. split; [done|]. split; [|by auto].
    intros c Hin. by apply elem_of_nil in Hin.
  - unfold market_of in *. destruct (m !! "market") as [code|] eqn:Hm; simpl in *; [|done].
    destruct (market_codes rest) as [codes'|] eqn:E; simpl in *; [|done].
    injection Hc as <-.
    destruct (IH codes' eq_refl (<[code:=m]> info)) as (info' & Hi & Hin & Hold & Hfrom).
    exists info'. split; [done|]. split; [|split].
    + intros c [->|Hc]%elem_of_cons; [|by apply Hin].
      apply Hold. rewrite lookup_insert_eq. by eexists.
    + intros c Hs. apply Hold. rewrite lookup_insert.
      case_decide; [by eexists|done].
    + intros c m' [Hl|[Hl1 Hl2]]%Hfrom.
      * rewrite lookup_insert in Hl. case_decide as Hcd.
        -- injection Hl as <-. subst c. right. split; [by left|done].
        -- by left.
      * right. split; [by right|done].
Qed.

Lemma market_lines_ok (info : gmap string market_record) (filtered : list string) :
  (∀ mk, mk ∈ filtered → is_Some (info !! mk)) →
  ∃ lines,
    market_lines info filtered = Ok lines
    ∧ Forall2 (λ mk line, ∃ m, info !! mk = Some m ∧ line = line_of m mk) filtered lines.
Proof.
  induction filtered as [|mk rest IH]; intros Hall; simpl.
  - exists []. by split.
  - destruct (Hall mk) as [m Hm]; [by left|].
    destruct IH as (lines & Hl & HF); [intros; apply Hall; by right|].
    unfold market_line. rewrite Hm. simpl. rewrite Hl. simpl.
    eexists. split; [done|]. constructor; [|done]. by exists m.
Qed.

Lemma detect_new_markets_inv old_set markets new_markets current :
  detect_new_markets old_set markets = Ok (new_markets, current) →
  ∃ codes,
    market_codes markets = Ok codes
    ∧ current = list_to_set codes
    ∧ new_markets = sorted_set (current ∖ old_set).
Proof.
  unfold detect_new_markets. destruct (market_codes markets) as [codes|]; simpl; [|done].
  intros [= <- <-]. by exists codes.
Qed.

Lemma elem_of_new_markets old_set markets new_markets current mk :
  detect_new_markets old_set markets = Ok (new_markets, current) →
  mk ∈ new_markets ↔ mk ∈ current ∧ mk ∉ old_set.
Proof.
  intros (codes & _ & _ & ->)%detect_new_markets_inv.
  rewrite elem_of_sorted_set. set_solver.
Qed.

Lemma new_markets_message_spec old_set markets new_markets current :
  detect_new_markets old_set markets = Ok (new_markets, current) →
  let filtered := filter (λ mk, _passes_prefix_filter rt cfg mk = true) new_markets in
  ∃ msg,
    new_markets_message rt cfg new_markets markets = Ok msg
    ∧ (msg = None ↔ filtered = [])
    ∧ (∀ text, msg = Some text →
         ∃ lines,
           text = markets_text cfg lines
           ∧ Forall2 (λ mk line, ∃ m, m ∈ markets ∧ m !! "market" = Some mk
                                      ∧ line = line_of m mk) filtered lines).
Proof.
  intros Hd filtered. pose proof Hd as (codes & Hc & Hcur & Hnew)%detect_new_markets_inv.
  unfold new_markets_message. fold filtered.
  destruct filtered as [|mk0 rest] eqn:Hf; [by exists None|].
  destruct (market_info_ok _ _ Hc ∅) as (info & -> & Hin & _ & Hfrom). cbn [rbind].
  destruct (market_lines_ok info (mk0 :: rest)) as (lines & -> & HF).
  - intros mk Hmk. apply Hin. rewrite <- Hf in Hmk.
    apply list_elem_of_filter in Hmk as [_ Hmk].
    apply (elem_of_new_markets _ _ _ _ _ Hd) in Hmk as [Hmk _].
    subst current. by apply elem_of_list_to_set in Hmk.
  - exists (Some (markets_text cfg lines)). split; [done|]. split; [done|].
    intros text [= <-]. exists lines. split; [done|].
    eapply Forall2_impl; [exact HF|]. simpl. intros mk line (m & Hm & ->).
    exists m. apply Hfrom in Hm as [Hm|[??]]; [by rewrite lookup_empty in Hm|done].
Qed.

Lemma new_markets_message_ok old_set markets new_markets current :
  detect_new_markets old_set markets = Ok (new_markets, current) →
  ∃ msg, new_markets_message rt cfg new_markets markets = Ok msg.
Proof. intros (msg & ? & _)%new_markets_message_spec. by exists msg. Qed.

(** ** What the notifier leaves in the state *)

Lemma send_message_eq env text s :
  send_message cfg env text s = (Ok tt, log_events (send_events cfg env text) s).
Proof.
  unfold send_message, send_events. destruct (chat_id_empty cfg).
  - by rewrite log_events_nil.
  - unfold try_except, bot_send_message. by destruct (sink env text).
Qed.

Lemma notify_new_markets_eq env new_markets markets msg s :
  new_markets_message rt cfg new_markets markets = Ok msg →
  notify_new_markets rt cfg env new_markets markets s
  = (Ok tt, log_events (new_markets_events cfg env new_markets msg) s).
Proof.
  intros Hm. unfold notify_new_markets, bind, modify, lift. rewrite Hm.
  rewrite record_event_log. destruct msg as [text|].
  - by rewrite send_message_eq, log_events_app.
  - done.
Qed.

Lemma notify_new_notices_eq env new_items s :
  notify_new_notices cfg env new_items s
  = (Ok tt, log_events (new_notices_events cfg env new_items) s).
Proof.
  unfold notify_new_notices, new_notices_events, bind, modify.
  rewrite record_event_log. destruct new_items as [|it rest].
  - done.
  - by rewrite send_message_eq, log_events_app.
Qed.

(** ** The two steps of a cycle, case by case *)

Lemma markets_step_fetch_fails env e s :
  markets_resp env = inl e → markets_step rt cfg env s = (Ok false, s).
Proof. intros H. unfold markets_step, try_except, bind, fetch_markets. by rewrite H. Qed.

Lemma markets_step_bad_record env markets e s :
  markets_resp env = inr markets →
  detect_new_markets (known_markets s) markets = Raise e →
  markets_step rt cfg env s = (Ok false, s).
Proof.
  intros H Hd. unfold markets_step, try_except, bind, fetch_markets, gets, lift.
  rewrite H. simpl. by rewrite Hd.
Qed.

Lemma markets_step_no_news env markets current s :
  markets_resp env = inr markets →
  detect_new_markets (known_markets s) markets = Ok ([], current) →
  markets_step rt cfg env s = (Ok true, s).
Proof.
  intros H Hd. unfold markets_step, try_except, bind, fetch_markets, gets, lift.
  rewrite H. simpl. by rewrite Hd.
Qed.

Lemma markets_step_news env markets new_markets current msg s :
  markets_resp env = inr markets →
  detect_new_markets (known_markets s) markets = Ok (new_markets, current) →
  new_markets ≠ [] →
  new_markets_message rt cfg new_markets markets = Ok msg →
  markets_step rt cfg env s =
    let s2 := after_new_markets cfg env new_markets current msg s in
    match write_markets env with
    | Written => (Ok true, set_file CACHE_FILE (Json (markets_doc (sorted_set current))) s2)
    | OpenFails => (Ok false, s2)
    | DumpFails => (Ok false, set_file CACHE_FILE Corrupt s2)
    end.
Proof.
  intros H Hd Hne Hm.
  unfold markets_step, try_except, bind, fetch_markets, gets, lift, ret.
  rewrite H, Hd.
  destruct new_markets as [|mk rest]; [done|].
  rewrite (notify_new_markets_eq _ _ _ msg) by done.
  unfold modify, save_cache, bind, modify, raise, after_new_markets.
  destruct (write_markets env); reflexivity.
Qed.

Lemma fetch_listing_notices_eq env s :
  fetch_listing_notices rt env s =
    match notices_fetch_raises env with
    | None => (Ok (fetched_notices rt env), s)
    | Some e => (Raise e, s)
    end.
Proof.
  unfold fetch_listing_notices, notices_fetch_raises, fetched_notices.
  destruct (notices_resp env) as [[]|]; reflexivity.
Qed.

Lemma notices_step_raises env e s :
  notices_fetch_raises env = Some e → notices_step rt cfg env s = (Ok false, s).
Proof.
  intros H. unfold notices_step, try_except, bind.
  by rewrite fetch_listing_notices_eq, H.
Qed.

Lemma notices_step_quiet env s :
  notices_fetch_raises env = None → fresh_notices rt env s = [] →
  notices_step rt cfg env s = (Ok true, s).
Proof.
  intros H Hf. unfold notices_step, try_except, bind, gets, ret.
  rewrite fetch_listing_notices_eq, H.
  unfold fresh_notices in Hf. by rewrite Hf.
Qed.

Lemma notices_step_fresh env s :
  notices_fetch_raises env = None → fresh_notices rt env s ≠ [] →
  notices_step rt cfg env s =
    let s2 := after_fresh_notices cfg env (fresh_notices rt env s) s in
    match write_notices env with
    | Written =>
        (Ok true, set_file NOTICES_CACHE_FILE
                    (Json (ids_doc (sorted_set (known_notice_ids s2)))) s2)
    | OpenFails => (Ok false, s2)
    | DumpFails => (Ok false, set_file NOTICES_CACHE_FILE Corrupt s2)
    end.
Proof.
  intros H Hf. unfold notices_step, try_except, bind, gets, ret.
  rewrite fetch_listing_notices_eq, H.
  unfold fresh_notices in *.
  destruct (filter _ (fetched_notices rt env)) as [|n rest] eqn:E; [done|].
  rewrite notify_new_notices_eq.
  unfold modify, save_cache, bind, modify, raise, after_fresh_notices.
  destruct (write_notices env); reflexivity.
Qed.

(** ** Frames of the building blocks *)

Lemma try_except_total {A} (body : M A) (h : exn → M A) s :
  (∀ e s1, ∃ a s', h e s1 = (Ok a, s')) →
  ∃ a s', try_except body h s = (Ok a, s').
Proof.
  intros Hh. unfold try_except. destruct (body s) as [[a|e] s1]; [by eauto|apply Hh].
Qed.

Lemma markets_step_total env s : ∃ b s', markets_step rt cfg env s = (Ok b, s').
Proof. apply try_except_total. intros e s1. by eexists _, _. Qed.

Lemma notices_step_total env s : ∃ b s', notices_step rt cfg env s = (Ok b, s').
Proof. apply try_except_total. intros e s1. by eexists _, _. Qed.

Lemma send_message_frame (R : relation state) `{!PreOrder R} env text :
  (∀ ev s, R s (record_event ev s)) → preserves R (send_message cfg env text).
Proof.
  intros Hev. unfold send_message, bot_send_message.
  repeat first [ progress cbv beta iota | frame_step ]; apply Hev.
Qed.

Lemma notify_new_markets_frame (R : relation state) `{!PreOrder R} env new markets :
  (∀ ev s, R s (record_event ev s)) →
  preserves R (notify_new_markets rt cfg env new markets).
Proof.
  intros Hev. unfold notify_new_markets.
  repeat first [ apply send_message_frame; [apply _|done]
               | progress cbv beta iota | frame_step ]; apply Hev.
Qed.

Lemma notify_new_notices_frame (R : relation state) `{!PreOrder R} env new_items :
  (∀ ev s, R s (record_event ev s)) →
  preserves R (notify_new_notices cfg env new_items).
Proof.
  intros Hev. unfold notify_new_notices.
  repeat first [ apply send_message_frame; [apply _|done]
               | progress cbv beta iota | frame_step ]; apply Hev.
Qed.

Lemma save_cache_frame (R : relation state) `{!PreOrder R} outcome p data :
  (∀ f s, R s (set_file p f s)) → preserves R (save_cache outcome p data).
Proof.
  intros Hf. unfold save_cache.
  repeat first [ progress cbv beta iota | frame_step ]; apply Hf.
Qed.

Lemma fetch_markets_frame (R : relation state) `{!PreOrder R} env :
  preserves R (fetch_markets env).
Proof. unfold fetch_markets. frame. Qed.

Lemma fetch_listing_notices_frame (R : relation state) `{!PreOrder R} env :
  preserves R (fetch_listing_notices rt env).
Proof. unfold fetch_listing_notices. frame. Qed.

(** Frames of a whole step, from what the relation allows. *)
Lemma markets_step_frame (R : relation state) `{!PreOrder R} env :
  (∀ ev s, R s (record_event ev s)) →
  (∀ f s, R s (set_file CACHE_FILE f s)) →
  (∀ X s, R s (set_known_markets X s)) →
  preserves R (markets_step rt cfg env).
Proof.
  intros Hev Hf Hk. unfold markets_step.
  repeat first [ apply fetch_markets_frame; apply _
               | apply notify_new_markets_frame; [apply _|done]
               | apply save_cache_frame; [apply _|done]
               | progress cbv beta iota | frame_step ]; apply Hk.
Qed.

Lemma notices_step_frame (R : relation state) `{!PreOrder R} env :
  (∀ ev s, R s (record_event ev s)) →
  (∀ f s, R s (set_file NOTICES_CACHE_FILE f s)) →
  (∀ X s, known_notice_ids s ⊆ X → R s (set_known_notice_ids X s)) →
  preserves R (notices_step rt cfg env).
Proof.
  intros Hev Hf Hk. unfold notices_step.
  repeat first [ apply fetch_listing_notices_frame; apply _
               | apply notify_new_notices_frame; [apply _|done]
               | apply save_cache_frame; [apply _|done]
               | progress cbv beta iota | frame_step ].
  apply Hk. set_solver.
Qed.

(** ** One cycle and runs of cycles *)

Lemma cycle_spec env s :
  ∃ b1 s1 b2 s2,
    markets_step rt cfg env s = (Ok b1, s1)
    ∧ notices_step rt cfg env s1 = (Ok b2, s2)
    ∧ cycle rt cfg env s = (if b1 then mark_ok env s2 else mark_fail s2)
    ∧ cycle_body rt cfg env s = (Ok tt, cycle rt cfg env s).
Proof.
  destruct (markets_step_total env s) as (b1 & s1 & E1).
  destruct (notices_step_total env s1) as (b2 & s2 & E2).
  exists b1, s1, b2, s2. unfold cycle, cycle_body, bind. rewrite E1, E2.
  by destruct b1.
Qed.

Lemma cycle_status env s :
  last_cycle_ok (cycle rt cfg env s) = markets_ok rt cfg env s
  ∧ last_cycle_at (cycle rt cfg env s)
    = (if markets_ok rt cfg env s then Some (now env) else last_cycle_at s).
Proof.
  destruct (cycle_spec env s) as (b1 & s1 & b2 & s2 & E1 & E2 & -> & _).
  unfold markets_ok. rewrite E1. simpl.
  assert (same_status s s2) as [_ Hat].
  { etrans.
    - eapply (preserves_run _ _ s), E1. apply markets_step_frame; frame_side.
    - eapply (preserves_run _ _ s1), E2. apply notices_step_frame; frame_side. }
  by destruct b1.
Qed.

Lemma cycle_markets_side env s b1 s1 :
  markets_step rt cfg env s = (Ok b1, s1) →
  same_markets_side s1 (cycle rt cfg env s).
Proof.
  intros E1. destruct (cycle_spec env s) as (b1' & s1' & b2 & s2 & E1' & E2 & -> & _).
  rewrite E1 in E1'. injection E1' as <- <-.
  assert (same_markets_side s1 s2) as [??].
  { eapply (preserves_run _ _ s1), E2. apply notices_step_frame; frame_side. }
  by destruct b1.
Qed.

Lemma cycle_notice_ids_grow env s : notice_ids_grow s (cycle rt cfg env s).
Proof.
  destruct (cycle_spec env s) as (b1 & s1 & b2 & s2 & E1 & E2 & -> & _).
  assert (notice_ids_grow s s2) as H.
  { etrans.
    - eapply (preserves_run _ _ s), E1. apply markets_step_frame; frame_side.
    - eapply (preserves_run _ _ s1), E2. apply notices_step_frame; frame_side. }
  by destruct b1.
Qed.

Lemma run_snoc envs env s :
  run rt cfg (envs ++ [env]) s = cycle rt cfg env (run rt cfg envs s).
Proof. unfold run. by rewrite foldl_app. Qed.

Lemma run_cons env envs s :
  run rt cfg (env :: envs) s = run rt cfg envs (cycle rt cfg env s).
Proof. reflexivity. Qed.

Lemma run_notice_ids_grow envs s : notice_ids_grow s (run rt cfg envs s).
Proof.
  revert s. induction envs as [|env envs IH]; intros s; [done|].
  rewrite run_cons. etrans; [apply cycle_notice_ids_grow|apply IH].
Qed.

Lemma cycle_journal_after_markets env s b1 s1 :
  markets_step rt cfg env s = (Ok b1, s1) →
  journal_grows s1 (cycle rt cfg env s).
Proof.
  intros E1. destruct (cycle_spec env s) as (b1' & s1' & b2 & s2 & E1' & E2 & -> & _).
  rewrite E1 in E1'. injection E1' as <- <-.
  assert (journal_grows s1 s2) as H.
  { eapply (preserves_run _ _ s1), E2. apply notices_step_frame; frame_side. }
  by destruct b1.
Qed.

End EngineFacts.

(** * The properties of the specification *)

(** ** Filter correctness: the scenario of the specification *)

(** C1. In the scenario of the specification (baseline {KRW-BTC}, fetch
    with codes KRW-BTC, KRW-ETH, JPY-XRP, prefixes KRW- and USDT-) the one
    message sent lists KRW-ETH only, and the baseline held and persisted
    after the cycle is the whole fetched code set.  In general, when a
    fetch shows new codes, the message is built from the new codes that
    pass the prefix filter (none passing: no message), while the baseline
    becomes the unfiltered current code set. *)
Theorem C1_filter_for_notification_only :
  (let s' := cycle ascii_runtime filter_cfg filter_env filter_state in
   journal s' =
     [ NotifyNewMarkets ["JPY-XRP"; "KRW-ETH"];
       BotSend "🆕 Upbit: новые рынки (KRW,USDT)
• KRW-ETH — Ethereum / 이더리움

Источник API: https://api.upbit.com/v1/market/all" true ]
   ∧ known_markets s' = {[ "KRW-BTC"; "KRW-ETH"; "JPY-XRP" ]}
   ∧ cache_file s' = Json (markets_doc ["JPY-XRP"; "KRW-BTC"; "KRW-ETH"]))
  ∧ (∀ rt cfg env s markets new_markets current,
       markets_resp env = inr markets →
       detect_new_markets (known_markets s) markets = Ok (new_markets, current) →
       new_markets ≠ [] →
       let s' := cycle rt cfg env s in
       let filtered := filter (λ mk, _passes_prefix_filter rt cfg mk = true) new_markets in
       known_markets s' = current
       ∧ (write_markets env = Written →
          cache_file s' = Json (markets_doc (sorted_set current)))
       ∧ ∃ msg,
           new_markets_message rt cfg new_markets markets = Ok msg
           ∧ (msg = None ↔ filtered = [])
           ∧ (∀ text, msg = Some text →
                ∃ lines,
                  text = markets_text cfg lines
                  ∧ Forall2 (λ mk line, ∃ m, m ∈ markets ∧ m !! "market" = Some mk
                                             ∧ line = line_of m mk) filtered lines)
           ∧ (journal s ++ new_markets_events cfg env new_markets msg)%list
               `prefix_of` journal s').
Proof.
  split.
  - cbv zeta. split; [|split].
    + vm_compute. reflexivity.
    + vm_compute. reflexivity.
    + vm_compute. reflexivity.
  - intros rt cfg env s markets new_markets current Hresp Hd Hne s' filtered.
    destruct (new_markets_message_spec rt cfg _ _ _ _ Hd) as (msg & Hmsg & Hnone & Htext).
    pose proof (markets_step_news rt cfg env _ _ _ msg s Hresp Hd Hne Hmsg) as Hstep.
    cbv zeta in Hstep.
    destruct (markets_step_total rt cfg env s) as (b1 & s1 & E1).
    pose proof (cycle_markets_side rt cfg env s b1 s1 E1) as [Hk Hc].
    pose proof (cycle_journal_after_markets rt cfg env s b1 s1 E1) as Hj.
    fold s' in Hk, Hc, Hj. rewrite E1 in Hstep.
    assert (known_markets s1 = current
            ∧ journal s1 = (journal s ++ new_markets_events cfg env new_markets msg)%list
            ∧ (write_markets env = Written →
               cache_file s1 = Json (markets_doc (sorted_set current)))) as (H1 & H2 & H3).
    { destruct (write_markets env); injection Hstep as -> ->; by simpl. }
    split; [congruence|]. split; [intros Hw; rewrite Hc; by apply H3|].
    exists msg. split; [done|]. split; [done|]. split; [done|].
    unfold journal_grows in Hj. by rewrite <- H2.
Qed.

(** The general part at the scenario: the baseline becomes the fetched set. *)
Lemma C1_filter_for_notification_only_witness :
  known_markets (cycle ascii_runtime filter_cfg filter_env filter_state)
  = list_to_set ["KRW-BTC"; "KRW-ETH"; "JPY-XRP"].
Proof.
  refine (proj1 (proj2 C1_filter_for_notification_only
                   ascii_runtime filter_cfg filter_env filter_state
                   _ ["JPY-XRP"; "KRW-ETH"] _ eq_refl _ _)).
  - vm_compute. reflexivity.
  - discriminate.
Defined.

(** ** Failure of the market source *)

(** C5. A cycle whose market fetch fails ends with [ok = false] and leaves
    both the known-market set in memory and the market baseline document
    as they were; a later cycle whose market step succeeds ends with
    [ok = true]. *)
Theorem C5_market_fetch_failure rt cfg env e s later env' :
  markets_resp env = inl e →
  let s1 := cycle rt cfg env s in
  let s2 := run rt cfg later s1 in
  markets_ok rt cfg env' s2 = true →
  last_cycle_ok s1 = false
  ∧ known_markets s1 = known_markets s
  ∧ cache_file s1 = cache_file s
  ∧ last_cycle_ok (cycle rt cfg env' s2) = true.
Proof.
  intros He s1 s2 Hok.
  pose proof (markets_step_fetch_fails rt cfg env e s He) as E1.
  destruct (cycle_markets_side rt cfg env s _ _ E1) as [Hk Hc].
  destruct (cycle_status rt cfg env s) as [Hs _].
  unfold markets_ok in Hs. rewrite E1 in Hs.
  destruct (cycle_status rt cfg env' s2) as [Hs' _].
  repeat split; [done..|]. by rewrite Hs'.
Qed.

(** An outage of the catalogue followed by the pass of the filter scenario. *)
Lemma C5_market_fetch_failure_witness :
  let s1 := cycle ascii_runtime filter_cfg outage_env filter_state in
  last_cycle_ok s1 = false
  ∧ known_markets s1 = known_markets filter_state
  ∧ cache_file s1 = cache_file filter_state
  ∧ last_cycle_ok (cycle ascii_runtime filter_cfg filter_env s1) = true.
Proof.
  apply (C5_market_fetch_failure ascii_runtime filter_cfg outage_env RequestException
           filter_state [] filter_env).
  - reflexivity.
  - vm_compute. reflexivity.
Defined.

(** ** Isolation of the notice source *)

Lemma markets_step_with_notices rt cfg r w env :
  markets_step rt cfg (with_notices r w env) = markets_step rt cfg env.
Proof. reflexivity. Qed.

(** C6. On a timeout or a request error the notice adapter returns the
    empty list and does not raise.  Whatever the notice source answers in a
    cycle (an exception that the adapter lets through included), the market
    step of that cycle runs as it would have anyway, the notice step never
    raises into the loop, what the market step did to the known-market set,
    the market document and the journal survives to the end of the cycle,
    and the status equals the outcome of the market step. *)
Theorem C6_notice_source_isolated rt cfg env s r w :
  fetch_listing_notices rt (with_notices (inl Timeout) w env) s = (Ok [], s)
  ∧ fetch_listing_notices rt (with_notices (inl RequestException) w env) s = (Ok [], s)
  ∧ let env' := with_notices r w env in
    ∃ b s1,
      markets_step rt cfg env s = (Ok b, s1)
      ∧ markets_step rt cfg env' s = (Ok b, s1)
      ∧ (∃ b2 s2, notices_step rt cfg env' s1 = (Ok b2, s2))
      ∧ known_markets (cycle rt cfg env' s) = known_markets s1
      ∧ cache_file (cycle rt cfg env' s) = cache_file s1
      ∧ journal s1 `prefix_of` journal (cycle rt cfg env' s)
      ∧ last_cycle_ok (cycle rt cfg env' s) = b.
Proof.
  split; [done|]. split; [done|]. intros env'.
  destruct (markets_step_total rt cfg env s) as (b & s1 & E1).
  assert (markets_step rt cfg env' s = (Ok b, s1)) as E1'.
  { unfold env'. by rewrite markets_step_with_notices. }
  exists b, s1. split; [done|]. split; [done|].
  split; [apply notices_step_total|].
  destruct (cycle_markets_side rt cfg env' s _ _ E1') as [Hk Hc].
  pose proof (cycle_journal_after_markets rt cfg env' s _ _ E1') as Hj.
  destruct (cycle_status rt cfg env' s) as [Hs _].
  unfold markets_ok in Hs. rewrite E1' in Hs. done.
Qed.

(** ** The status globals *)

(** C9. [mark_fail] changes the [ok] flag and nothing else, so the
    endpoint answers [ok = false] with the time stamp it had.  After a
    cycle the endpoint answers the outcome of the market step, with the
    time of this cycle when the step succeeded and with the time stamp it
    answered before when the step failed; so after any run of cycles its
    time stamp is that of the last successful cycle.  Before the first
    cycle (start-up done) it answers [ok = true] with no time stamp. *)
Theorem C9_failed_cycle_keeps_timestamp rt cfg :
  (∀ s, mark_fail s =
        {| cache_file := cache_file s; notices_cache_file := notices_cache_file s;
           last_cycle_ok := false; last_cycle_at := last_cycle_at s;
           known_markets := known_markets s; known_notice_ids := known_notice_ids s;
           journal := journal s |})
  ∧ (∀ s, health cfg (mark_fail s) = (false, (health cfg s).1.2, (health cfg s).2))
  ∧ (∀ env s,
       last_cycle_ok (cycle rt cfg env s) = markets_ok rt cfg env s
       ∧ last_cycle_at (cycle rt cfg env s)
         = if markets_ok rt cfg env s then Some (now env) else last_cycle_at s)
  ∧ (∀ env s,
       health cfg (cycle rt cfg env s)
       = (markets_ok rt cfg env s,
          (if markets_ok rt cfg env s then Some (now env) else (health cfg s).1.2),
          FILTER_MARKETS cfg))
  ∧ (∀ envs s,
       last_cycle_at (run rt cfg envs s) = last_success_at rt cfg envs s (last_cycle_at s))
  ∧ (∀ envs s,
       health cfg (run rt cfg envs s)
       = (last_cycle_ok (run rt cfg envs s),
          last_success_at rt cfg envs s (health cfg s).1.2,
          FILTER_MARKETS cfg))
  ∧ (∀ markets_file notices_file env,
       health cfg (initial_state markets_file notices_file)
         = (true, None, FILTER_MARKETS cfg)
       ∧ health cfg (startup rt cfg env (initial_state markets_file notices_file)).2
         = (true, None, FILTER_MARKETS cfg)).
Proof.
  assert (∀ envs s, last_cycle_at (run rt cfg envs s)
                    = last_success_at rt cfg envs s (last_cycle_at s)) as Hrun.
  { intros envs. induction envs as [|env envs IH]; intros s; [done|].
    rewrite run_cons, IH. simpl. by destruct (cycle_status rt cfg env s) as [_ ->]. }
  split; [done|]. split; [done|]. split; [apply cycle_status|]. split.
  { intros env s. unfold health. cbn [fst snd].
    by destruct (cycle_status rt cfg env s) as [-> ->]. }
  split; [exact Hrun|]. split.
  { intros envs s. unfold health. cbn [fst snd]. by rewrite Hrun. }
  intros f1 f2 env. split; [done|].
  assert (preserves same_status (startup rt cfg env)) as H.
  { unfold startup, bootstrap_baseline, main_loop_init.
    repeat first [ apply fetch_markets_frame; apply _
                 | apply fetch_listing_notices_frame; apply _
                 | apply send_message_frame; frame_side
                 | apply save_cache_frame; frame_side
                 | progress cbv beta iota | frame_step ]; frame_leaf. }
  destruct (H (initial_state f1 f2)) as [H1 H2].
  unfold health. by rewrite H1, H2.
Qed.

(** ** Message construction cannot fail *)

(** C10. When the new-market list is the diff that [detect_new_markets]
    computed from the same records, every code that passes the filter is
    the [market] field of one of the records, every look-up [info[mk]]
    succeeds, the names missing from a record are rendered as empty
    strings, and neither the construction of the message nor
    [notify_new_markets] raises. *)
Theorem C10_message_construction_never_raises rt cfg env old_set markets new_markets
    current s :
  detect_new_markets old_set markets = Ok (new_markets, current) →
  let filtered := filter (λ mk, _passes_prefix_filter rt cfg mk = true) new_markets in
  (∀ mk, mk ∈ filtered → ∃ m, m ∈ markets ∧ m !! "market" = Some mk)
  ∧ (∃ info lines,
       market_info markets ∅ = Ok info
       ∧ (∀ mk, mk ∈ filtered → is_Some (info !! mk))
       ∧ market_lines info filtered = Ok lines
       ∧ Forall2 (λ mk line, ∃ m,
            info !! mk = Some m
            ∧ line = "• " ++ mk ++ " — " ++ default "" (m !! "english_name")
                          ++ " / " ++ default "" (m !! "korean_name")) filtered lines)
  ∧ (∃ msg, new_markets_message rt cfg new_markets markets = Ok msg)
  ∧ (∃ s', notify_new_markets rt cfg env new_markets markets s = (Ok tt, s')).
Proof.
  intros Hd filtered.
  pose proof Hd as (codes & Hc & Hcur & Hnew)%detect_new_markets_inv.
  destruct (market_info_ok _ _ Hc ∅) as (info & Hinfo & Hin & _ & Hfrom).
  assert (∀ mk, mk ∈ filtered → is_Some (info !! mk)) as Hall.
  { intros mk Hmk. apply Hin.
    apply list_elem_of_filter in Hmk as [_ Hmk].
    apply (elem_of_new_markets _ _ _ _ _ Hd) in Hmk as [Hmk _].
    subst current. by apply elem_of_list_to_set in Hmk. }
  destruct (market_lines_ok info filtered Hall) as (lines & Hlines & HF).
  destruct (new_markets_message_ok rt cfg _ _ _ _ Hd) as (msg & Hmsg).
  split; [|split; [|split]].
  - intros mk [m Hm]%Hall. exists m.
    apply Hfrom in Hm as [Hm|?]; [by rewrite lookup_empty in Hm|done].
  - by exists info, lines.
  - by exists msg.
  - eexists. by apply notify_new_markets_eq.
Qed.

(** A fetch in which the record of KRW-ETH carries no names. *)
Lemma C10_message_construction_never_raises_witness :
  ∃ msg, new_markets_message ascii_runtime filter_cfg ["JPY-XRP"; "KRW-ETH"]
           [ catalogue_entry "KRW-BTC" "Bitcoin" "비트코인";
             {[ "market" := "KRW-ETH" ]};
             catalogue_entry "JPY-XRP" "Ripple" "리플" ] = Ok msg.
Proof.
  refine (proj1 (proj2 (proj2
    (C10_message_construction_never_raises ascii_runtime filter_cfg filter_env
       {[ "KRW-BTC" ]} _ _ (list_to_set ["KRW-BTC"; "KRW-ETH"; "JPY-XRP"])
       filter_state _)))).
  vm_compute. reflexivity.
Defined.

(** ** Dispatch failures *)

Section Dispatch.

Variable rt : runtime.
Variable cfg : config.
Variable f : string → bool.

Lemma markets_step_sink env s s' :
  same_but_journal s s' →
  ∃ b s1 s1',
    markets_step rt cfg env s = (Ok b, s1)
    ∧ markets_step rt cfg (with_sink f env) s' = (Ok b, s1')
    ∧ same_but_journal s1 s1'.
Proof.
  intros Hs. pose proof Hs as (Hc & Hn & Ho & Ha & Hk & Hi).
  destruct (markets_resp env) as [e|markets] eqn:Hresp.
  { exists false, s, s'. split; [by eapply markets_step_fetch_fails|].
    split; [by eapply markets_step_fetch_fails|done]. }
  destruct (detect_new_markets (known_markets s) markets) as [[new cur]|e] eqn:Hd.
  2:{ exists false, s, s'. split; [by eapply markets_step_bad_record|].
      split; [|done]. eapply markets_step_bad_record; [done|]. by rewrite <- Hk. }
  destruct new as [|mk rest].
  { exists true, s, s'. split; [by eapply markets_step_no_news|].
    split; [|done]. eapply markets_step_no_news; [done|]. by rewrite <- Hk. }
  destruct (new_markets_message_ok rt cfg _ _ _ _ Hd) as (msg & Hmsg).
  rewrite (markets_step_news rt cfg env markets (mk :: rest) cur msg s) by done.
  rewrite (markets_step_news rt cfg (with_sink f env) markets (mk :: rest) cur msg s')
    by (try done; by rewrite <- Hk).
  cbv zeta. change (write_markets (with_sink f env)) with (write_markets env).
  destruct (write_markets env); eexists _, _, _; (split; [done|]; split; [done|]);
    unfold same_but_journal; simpl; done.
Qed.

Lemma notices_step_sink env s s' :
  same_but_journal s s' →
  ∃ b s1 s1',
    notices_step rt cfg env s = (Ok b, s1)
    ∧ notices_step rt cfg (with_sink f env) s' = (Ok b, s1')
    ∧ same_but_journal s1 s1'.
Proof.
  intros Hs. pose proof Hs as (Hc & Hn & Ho & Ha & Hk & Hi).
  destruct (notices_fetch_raises env) as [e|] eqn:Hr.
  { exists false, s, s'. split; [by eapply notices_step_raises|].
    split; [by eapply notices_step_raises|done]. }
  assert (fresh_notices rt (with_sink f env) s' = fresh_notices rt env s) as Hfresh.
  { unfold fresh_notices. by rewrite Hi. }
  destruct (fresh_notices rt env s) as [|n rest] eqn:Hf.
  { exists true, s, s'. split; [by eapply notices_step_quiet|].
    split; [|done]. by eapply notices_step_quiet. }
  rewrite (notices_step_fresh rt cfg env s) by (try done; by rewrite Hf).
  rewrite (notices_step_fresh rt cfg (with_sink f env) s') by (try done; by rewrite Hfresh).
  cbv zeta. rewrite Hfresh, Hf.
  change (write_notices (with_sink f env)) with (write_notices env).
  destruct (write_notices env); eexists _, _, _; (split; [done|]; split; [done|]);
    unfold same_but_journal; simpl; rewrite ?Hi; done.
Qed.

Lemma cycle_sink env s s' :
  same_but_journal s s' →
  same_but_journal (cycle rt cfg env s) (cycle rt cfg (with_sink f env) s').
Proof.
  intros Hs.
  destruct (markets_step_sink env s s' Hs) as (b1 & s1 & s1' & E1 & E1' & Hs1).
  destruct (notices_step_sink env s1 s1' Hs1) as (b2 & s2 & s2' & E2 & E2' & Hs2).
  unfold cycle, cycle_body, bind. rewrite E1, E1', E2, E2'.
  destruct Hs2 as (? & ? & ? & ? & ? & ?).
  destruct b1; unfold same_but_journal; simpl; done.
Qed.

End Dispatch.

(** C7. [send_message] catches the failure of the bot call and returns;
    nothing raised by a dispatch leaves the loop body; and the cycle ends
    with the same known sets, the same two documents and the same status
    whatever the sink does, in particular as if every send had succeeded. *)
Theorem C7_dispatch_failure_no_rollback rt cfg env s text f :
  send_message cfg env text s = (Ok tt, log_events (send_events cfg env text) s)
  ∧ cycle_body rt cfg env s = (Ok tt, cycle rt cfg env s)
  ∧ same_but_journal (cycle rt cfg env s) (cycle rt cfg (with_sink f env) s)
  ∧ same_but_journal (cycle rt cfg env s) (cycle rt cfg (with_sink (λ _, true) env) s).
Proof.
  split; [apply send_message_eq|]. split.
  - by destruct (cycle_spec rt cfg env s) as (? & ? & ? & ? & _ & _ & _ & ?).
  - split; by apply cycle_sink.
Qed.

(** ** Bootstrap *)

(** C8. [bootstrap_baseline] never raises and leaves the journal alone: no
    notify function and no send is called.  Run again on the same answers
    of the two sources, it leaves the state, the two baseline documents
    included, exactly as the first run left it.  A document that gets
    written is the sorted set of the codes, or of the ids, that the source
    answered, whatever was there before. *)
Theorem C8_bootstrap_idempotent_silent rt env s :
  let r1 := bootstrap_baseline rt env s in
  let r2 := bootstrap_baseline rt env r1.2 in
  r1.1 = Ok tt ∧ r2.1 = Ok tt
  ∧ journal r1.2 = journal s ∧ journal r2.2 = journal s
  ∧ cache_file r2.2 = cache_file r1.2
  ∧ notices_cache_file r2.2 = notices_cache_file r1.2
  ∧ r2.2 = r1.2
  ∧ (∀ markets codes,
       markets_resp env = inr markets → market_codes markets = Ok codes →
       write_markets env = Written →
       cache_file r1.2 = Json (markets_doc (sorted_set (list_to_set codes))))
  ∧ (notices_fetch_raises env = None → write_notices env = Written →
     notices_cache_file r1.2
     = Json (ids_doc (sorted_set (list_to_set (map n_id (fetched_notices rt env)))))).
Proof.
  unfold notices_fetch_raises, fetched_notices.
  unfold bootstrap_baseline, try_except, bind, fetch_markets, fetch_listing_notices,
    save_cache, lift, ret, raise, modify, bind.
  destruct (markets_resp env) as [e|markets]; simpl;
    [|destruct (market_codes markets) as [codes|e] eqn:Hcodes; simpl;
      [destruct (write_markets env); simpl|]];
    (destruct (notices_resp env) as [[]|anchors]; simpl;
     try (destruct (write_notices env); simpl));
    repeat split; try reflexivity; intros; simplify_eq; congruence.
Qed.

(** ** What a cycle adds to the journal and to the known sets *)

Section CycleEffect.

Variable rt : runtime.
Variable cfg : config.

Lemma send_events_only_sends env text ev :
  ev ∈ send_events cfg env text → ev = BotSend text (sink env text).
Proof.
  unfold send_events. destruct (chat_id_empty cfg); [by intros ?%elem_of_nil|].
  by intros ->%list_elem_of_singleton.
Qed.

Lemma markets_step_effect env s :
  ∃ b s1 evs,
    markets_step rt cfg env s = (Ok b, s1)
    ∧ journal s1 = (journal s ++ evs)%list
    ∧ (∀ items, NotifyNewNotices items ∉ evs)
    ∧ (∀ new mk, NotifyNewMarkets new ∈ evs → mk ∈ new → mk ∈ known_markets s1)
    ∧ markets_replaced env s s1
    ∧ markets_doc_outcome s s1.
Proof.
  assert (∀ b, ∃ (b' : bool) s1 evs,
    (Ok b, s) = (Ok b', s1) ∧ journal s1 = (journal s ++ evs)%list
    ∧ (∀ items, NotifyNewNotices items ∉ evs)
    ∧ (∀ new mk, NotifyNewMarkets new ∈ evs → mk ∈ new → mk ∈ known_markets s1)
    ∧ markets_replaced env s s1 ∧ markets_doc_outcome s s1) as Hsame.
  { intros b. exists b, s, []. rewrite app_nil_r.
    split; [done|]. split; [done|].
    split; [intros items H; by apply elem_of_nil in H|].
    split; [intros new mk H; by apply elem_of_nil in H|].
    split; by left. }
  destruct (markets_resp env) as [e|markets] eqn:Hresp.
  { rewrite (markets_step_fetch_fails rt cfg env e s Hresp). apply Hsame. }
  destruct (detect_new_markets (known_markets s) markets) as [[new cur]|e] eqn:Hd.
  2:{ rewrite (markets_step_bad_record rt cfg env markets e s Hresp Hd). apply Hsame. }
  destruct new as [|mk0 rest].
  { rewrite (markets_step_no_news rt cfg env markets cur s Hresp Hd). apply Hsame. }
  destruct (new_markets_message_ok rt cfg _ _ _ _ Hd) as (msg & Hmsg).
  rewrite (markets_step_news rt cfg env markets (mk0 :: rest) cur msg s) by done.
  cbv zeta.
  pose proof Hd as (codes & Hc & Hcur & _)%detect_new_markets_inv.
  assert (∀ items, NotifyNewNotices items ∉ new_markets_events cfg env (mk0 :: rest) msg)
    as Hno.
  { intros items [?|Hin]%elem_of_cons; [done|]. destruct msg as [text|].
    - by apply send_events_only_sends in Hin.
    - by apply elem_of_nil in Hin. }
  assert (∀ new mk, NotifyNewMarkets new ∈ new_markets_events cfg env (mk0 :: rest) msg →
                    mk ∈ new → mk ∈ cur) as Hin.
  { intros new mk [[= ->]|Hin]%elem_of_cons Hmk.
    - by apply (elem_of_new_markets _ _ _ _ _ Hd) in Hmk as [? _].
    - destruct msg as [text|]; [by apply send_events_only_sends in Hin|].
      by apply elem_of_nil in Hin. }
  destruct (write_markets env);
    eexists _, _, (new_markets_events cfg env (mk0 :: rest) msg);
    (split; [done|]); (split; [done|]); (split; [done|]); (split; [done|]);
    (split; [right; by exists markets, codes|]);
    unfold markets_doc_outcome; simpl; auto.
Qed.

Lemma notices_step_effect env s :
  ∃ b s1,
    notices_step rt cfg env s = (Ok b, s1)
    ∧ same_markets_side s s1
    ∧ notices_doc_outcome s s1
    ∧ ((journal s1 = journal s ∧ known_notice_ids s1 = known_notice_ids s
        ∧ (notices_fetch_raises env = None → fresh_notices rt env s = []))
       ∨ (notices_fetch_raises env = None
          ∧ fresh_notices rt env s ≠ []
          ∧ journal s1
            = (journal s ++ new_notices_events cfg env (fresh_notices rt env s))%list
          ∧ known_notice_ids s1
            = known_notice_ids s ∪ list_to_set (map n_id (fresh_notices rt env s)))).
Proof.
  destruct (notices_fetch_raises env) as [e|] eqn:Hr.
  { rewrite (notices_step_raises rt cfg env e s Hr). exists false, s.
    repeat split; [by left|]. by left. }
  destruct (fresh_notices rt env s) as [|n rest] eqn:Hf.
  { rewrite (notices_step_quiet rt cfg env s Hr Hf). exists true, s.
    repeat split; [by left|]. by left. }
  rewrite (notices_step_fresh rt cfg env s) by (try done; by rewrite Hf).
  cbv zeta. rewrite Hf.
  destruct (write_notices env); eexists _, _; (split; [done|]);
    (split; [done|]); (split; [unfold notices_doc_outcome; simpl; by auto|]);
    right; done.
Qed.

Lemma cycle_effect env s :
  let s' := cycle rt cfg env s in
  ∃ evs,
    (∀ items, NotifyNewNotices items ∉ evs)
    ∧ (∀ new mk, NotifyNewMarkets new ∈ evs → mk ∈ new → mk ∈ known_markets s')
    ∧ markets_replaced env s s'
    ∧ markets_doc_outcome s s'
    ∧ notices_doc_outcome s s'
    ∧ ((journal s' = (journal s ++ evs)%list
        ∧ known_notice_ids s' = known_notice_ids s
        ∧ (notices_fetch_raises env = None → fresh_notices rt env s = []))
       ∨ (notices_fetch_raises env = None
          ∧ fresh_notices rt env s ≠ []
          ∧ journal s'
            = (journal s ++ evs ++ new_notices_events cfg env (fresh_notices rt env s))%list
          ∧ known_notice_ids s'
            = known_notice_ids s ∪ list_to_set (map n_id (fresh_notices rt env s)))).
Proof.
  intros s'.
  destruct (markets_step_effect env s) as (b1 & s1 & evs & E1 & Hj & Hno & Hin & Hrep & Hdoc).
  destruct (notices_step_effect env s1) as (b2 & s2 & E2 & [Hk Hc] & Hndoc & Hn).
  assert (same_notices_side s s1) as [Hi Hnf].
  { eapply (preserves_run _ _ s), E1. apply markets_step_frame; frame_side. }
  assert (fresh_notices rt env s1 = fresh_notices rt env s) as Hfr.
  { unfold fresh_notices. by rewrite Hi. }
  assert (s' = if b1 then mark_ok env s2 else mark_fail s2) as Hs'.
  { unfold s', cycle, cycle_body, bind. rewrite E1, E2. by destruct b1. }
  assert (journal s' = journal s2 ∧ known_markets s' = known_markets s1
          ∧ known_notice_ids s' = known_notice_ids s2
          ∧ cache_file s' = cache_file s1
          ∧ notices_cache_file s' = notices_cache_file s2) as (J & K & I & C & N).
  { rewrite Hs'. by destruct b1. }
  exists evs. split; [done|]. split; [by rewrite K|].
  split; [unfold markets_replaced in *; by rewrite K|].
  split; [unfold markets_doc_outcome in *; by rewrite C, K|].
  split; [unfold notices_doc_outcome in *; rewrite N, I, <- Hnf; done|].
  rewrite J, I, <- Hfr, <- Hi. rewrite app_assoc, <- Hj. done.
Qed.

End CycleEffect.

(** ** When bootstrap runs *)

(** C2, as stated, fails: with the market document present and the notice
    document absent the bootstrap branch is taken, and it seeds both
    documents again from the sources. *)
Lemma C2_bootstrap_runs_with_one_document :
  os_path_exists CACHE_FILE half_seeded_state = true
  ∧ os_path_exists NOTICES_CACHE_FILE half_seeded_state = false
  ∧ cache_not_found half_seeded_state = true
  ∧ (let s' := (startup ascii_runtime filter_cfg filter_env half_seeded_state).2 in
     cache_file s' = Json (markets_doc ["JPY-XRP"; "KRW-BTC"; "KRW-ETH"])
     ∧ notices_cache_file s' = Json (ids_doc [])).
Proof. vm_compute. repeat split; reflexivity. Qed.

(** C2, amended. The bootstrap path runs if and only if at least one of the
    two baseline documents is absent at start-up; when both exist, start-up
    goes to the loop set-up directly. *)
Theorem C2_bootstrap_iff_a_document_is_missing rt cfg env s :
  (cache_not_found s = true ↔ cache_file s = Missing ∨ notices_cache_file s = Missing)
  ∧ startup rt cfg env s =
      (if cache_not_found s
       then (bootstrap_baseline rt env ;; main_loop_init cfg env) s
       else main_loop_init cfg env s).
Proof.
  split.
  - unfold cache_not_found, os_path_exists, get_file.
    destruct (cache_file s), (notices_cache_file s); simpl;
      (split; [intros ?; try done; auto | intros [?|?]; done]).
  - unfold startup, bind, gets. by destruct (cache_not_found s).
Qed.

(** ** Growth of the known sets *)

(** C3, as stated, fails for the market set: when a fetch shows a new code
    and no longer shows a known one, the new baseline is the fetched set, so
    the code that disappeared leaves the baseline although it had been
    passed to the notifier. *)
Lemma C3_market_baseline_can_shrink :
  let s1 := cycle ascii_runtime filter_cfg delisting_env_1 empty_baseline_state in
  let s2 := cycle ascii_runtime filter_cfg delisting_env_2 s1 in
  ("KRW-AAA" ∈ known_markets s1)
  ∧ ("KRW-AAA" ∉ known_markets s2)
  ∧ (¬ (known_markets s1 ⊆ known_markets s2))
  ∧ journal s2 =
      [ NotifyNewMarkets ["KRW-AAA"; "KRW-BBB"];
        BotSend "🆕 Upbit: новые рынки (KRW,USDT)
• KRW-AAA — Alpha / 알파
• KRW-BBB — Beta / 베타

Источник API: https://api.upbit.com/v1/market/all" true;
        NotifyNewMarkets ["KRW-CCC"];
        BotSend "🆕 Upbit: новые рынки (KRW,USDT)
• KRW-CCC — Gamma / 감마

Источник API: https://api.upbit.com/v1/market/all" true ]
  ∧ cache_file s1 = Json (markets_doc ["KRW-AAA"; "KRW-BBB"])
  ∧ cache_file s2 = Json (markets_doc ["KRW-BBB"; "KRW-CCC"]).
Proof.
  cbv zeta.
  assert ("KRW-AAA" ∈ known_markets
            (cycle ascii_runtime filter_cfg delisting_env_1 empty_baseline_state)) as H1.
  { apply (bool_decide_unpack _). vm_compute. exact I. }
  assert ("KRW-AAA" ∉ known_markets
            (cycle ascii_runtime filter_cfg delisting_env_2
               (cycle ascii_runtime filter_cfg delisting_env_1 empty_baseline_state)))
    as H2.
  { apply (bool_decide_unpack _). vm_compute. exact I. }
  split; [done|]. split; [done|]. split; [set_solver|].
  repeat split; vm_compute; reflexivity.
Qed.

Section KnownSets.

Variable rt : runtime.
Variable cfg : config.

Lemma cycle_notified_ids_known env s :
  notified_ids_known s → notified_ids_known (cycle rt cfg env s).
Proof.
  intros Hinv items n Hin Hn.
  destruct (cycle_effect rt cfg env s)
    as (evs & Hno & _ & _ & _ & _ & [(J & K & _)|(_ & _ & J & K)]);
    rewrite J in Hin; rewrite K.
  - apply elem_of_app in Hin as [Hin|Hin]; [by eapply Hinv|by apply Hno in Hin].
  - rewrite !elem_of_app in Hin. destruct Hin as [Hin|[Hin|Hin]].
    + apply elem_of_union_l. by eapply Hinv.
    + by apply Hno in Hin.
    + apply elem_of_union_r. unfold new_notices_events in Hin.
      apply elem_of_cons in Hin as [[= ->]|Hin].
      * apply elem_of_list_to_set, list_elem_of_fmap. by exists n.
      * destruct (fresh_notices rt env s); [by apply elem_of_nil in Hin|].
        by apply send_events_only_sends in Hin.
Qed.

Lemma run_notified_ids_known envs s :
  notified_ids_known s → notified_ids_known (run rt cfg envs s).
Proof.
  revert s. induction envs as [|env envs IH]; intros s Hs; [done|].
  rewrite run_cons. by apply IH, cycle_notified_ids_known.
Qed.

Lemma bootstrap_baseline_ok env s : (bootstrap_baseline rt env s).1 = Ok tt.
Proof.
  unfold bootstrap_baseline. unfold bind at 1.
  match goal with
  | |- context [try_except ?body ?h s] =>
      destruct (try_except_total body h s) as ([] & s1 & ->); [by eexists _, _|]
  end.
  match goal with
  | |- context [try_except ?body ?h s1] =>
      destruct (try_except_total body h s1) as ([] & s2 & ->); [by eexists _, _|]
  end.
  done.
Qed.

Lemma bootstrap_baseline_journal env : preserves same_journal (bootstrap_baseline rt env).
Proof.
  unfold bootstrap_baseline.
  repeat first [ apply fetch_markets_frame; apply _
               | apply fetch_listing_notices_frame; apply _
               | apply save_cache_frame; frame_side
               | progress cbv beta iota | frame_step ].
Qed.

Lemma main_loop_init_journal env s :
  ∃ s', main_loop_init cfg env s = (Ok tt, s')
        ∧ journal s' = (journal s ++ send_events cfg env "🚀 Upbit бот запущен")%list.
Proof.
  unfold main_loop_init, bind, gets, modify. rewrite send_message_eq.
  by eexists.
Qed.

Lemma startup_journal env s :
  journal (startup rt cfg env s).2
  = (journal s ++ send_events cfg env "🚀 Upbit бот запущен")%list.
Proof.
  unfold startup, bind, gets. destruct (cache_not_found s).
  - pose proof (bootstrap_baseline_ok env s) as Hok.
    pose proof (bootstrap_baseline_journal env s) as Hj.
    destruct (bootstrap_baseline rt env s) as [r s1]. simpl in *. subst r.
    unfold same_journal in Hj. rewrite <- Hj.
    destruct (main_loop_init_journal env s1) as (s' & E & J). by rewrite E.
  - unfold ret. destruct (main_loop_init_journal env s) as (s' & E & J). by rewrite E.
Qed.

Lemma startup_notified_ids_known env f1 f2 :
  notified_ids_known (startup rt cfg env (initial_state f1 f2)).2.
Proof.
  intros items n Hin _. rewrite startup_journal in Hin. simpl in Hin.
  by apply send_events_only_sends in Hin.
Qed.

End KnownSets.

(** C3, amended. The known notice-id set held by the loop grows from cycle
    to cycle, and in every run from process start it contains every id that
    was passed to the notifier.  The known-market set after a cycle is
    either unchanged or the code set of that cycle's fetch, and it contains
    every code passed to the notifier in that cycle; codes that the fetch
    no longer shows are not kept.  Each document is, after a cycle,
    unchanged, unreadable after a failed write, or the sorted known set. *)
Theorem C3_known_sets rt cfg :
  (∀ env s, known_notice_ids s ⊆ known_notice_ids (cycle rt cfg env s))
  ∧ (∀ envs s, known_notice_ids s ⊆ known_notice_ids (run rt cfg envs s))
  ∧ (∀ f1 f2 env0 envs,
       notified_ids_known (run rt cfg envs (startup rt cfg env0 (initial_state f1 f2)).2))
  ∧ (∀ env s,
       let s' := cycle rt cfg env s in
       markets_replaced env s s'
       ∧ journal s `prefix_of` journal s'
       ∧ (∀ new, NotifyNewMarkets new ∈ journal s' →
                 NotifyNewMarkets new ∈ journal s
                 ∨ ∀ mk, mk ∈ new → mk ∈ known_markets s'))
  ∧ (∀ env s,
       markets_doc_outcome s (cycle rt cfg env s)
       ∧ notices_doc_outcome s (cycle rt cfg env s)).
Proof.
  split; [apply cycle_notice_ids_grow|]. split; [apply run_notice_ids_grow|].
  split; [intros; apply run_notified_ids_known, startup_notified_ids_known|].
  split.
  - intros env s s'.
    destruct (cycle_effect rt cfg env s)
      as (evs & Hno & Hin & Hrep & _ & _ & [(J & _)|(_ & _ & J & _)]);
      fold s' in J, Hin; rewrite J; (split; [done|]); (split; [by apply prefix_app_r|]).
    + intros new [H|H]%elem_of_app; [by left|]. right. intros mk. by eapply Hin.
    + intros new H. rewrite !elem_of_app in H. destruct H as [H|[H|H]]; [by left|..].
      * right. intros mk. by eapply Hin.
      * unfold new_notices_events in H. apply elem_of_cons in H as [?|H]; [done|].
        destruct (fresh_notices rt env s); [by apply elem_of_nil in H|].
        by apply send_events_only_sends in H.
  - intros env s.
    by destruct (cycle_effect rt cfg env s) as (evs & _ & _ & _ & ? & ? & _).
Qed.

(** ** Notices with the same fingerprint *)

(** C4, as stated, fails in its second half: two anchors with the same
    title and the same resolved URL, returned by one fetch while their id
    is not yet known, are both passed to the notifier, and the message of
    that cycle lists the announcement twice. *)
Lemma C4_twin_entries_listed_twice :
  let s' := cycle ascii_runtime filter_cfg twin_env filter_state in
  fetched_notices ascii_runtime twin_env = [twin_notice; twin_notice]
  ∧ fresh_notices ascii_runtime twin_env filter_state = [twin_notice; twin_notice]
  ∧ journal s' =
      [ NotifyNewNotices [twin_notice; twin_notice];
        BotSend "📢 Upbit: новое объявление о листинге (KRW/USDT):
• New listing: KRW market for ABC
  https://upbit.com/service_center/notice?id=1

• New listing: KRW market for ABC
  https://upbit.com/service_center/notice?id=1" true ].
Proof. cbv zeta. repeat split; vm_compute; reflexivity. Qed.

Section Fingerprint.

Variable rt : runtime.
Variable cfg : config.

Lemma notice_of_anchor_id a n :
  notice_of_anchor rt a = Some n →
  n_id n = String.substring 0 16 (sha256_hexdigest rt (n_title n ++ "|" ++ n_url n)).
Proof.
  unfold notice_of_anchor.
  destruct (_ || _); [done|]. destruct (listing_intent rt _); [|done].
  destruct (negb _); [done|]. by intros [= <-].
Qed.

Lemma filter_same_id_fresh (known : gset string) (id : string) (l : list notice) :
  id ∉ known →
  filter (λ m, n_id m = id) (filter (λ m, n_id m ∉ known) l)
  = filter (λ m, n_id m = id) l.
Proof.
  intros Hid. induction l as [|m l IH]; [done|].
  rewrite !filter_cons. destruct (decide (n_id m ∉ known)) as [Hm|Hm].
  - rewrite filter_cons. by rewrite IH.
  - rewrite IH. destruct (decide (n_id m = id)) as [E|]; [|done].
    rewrite E in Hm. done.
Qed.

Lemma known_id_never_fresh env' later s m :
  n_id m ∈ known_notice_ids s →
  m ∉ fresh_notices rt env' (run rt cfg later s).
Proof.
  intros Hk [Hm _]%list_elem_of_filter. apply Hm.
  by apply (run_notice_ids_grow rt cfg later s).
Qed.

End Fingerprint.

(** C4, amended. Two scraped entries with the same title and the same
    resolved URL get the same id (they are the same item).  Entries are
    checked against the known ids only, not against each other: while the
    id is unknown, every entry of the fetch with that id is in the list
    passed to the notifier, whose call and single message are issued in
    that cycle; at the end of that cycle the id is known, and no later
    cycle passes an entry with that id to the notifier again. *)
Theorem C4_same_fingerprint_notified_in_one_cycle rt cfg env s later env' n :
  notices_fetch_raises env = None →
  n ∈ fetched_notices rt env →
  n_id n ∉ known_notice_ids s →
  let fresh := fresh_notices rt env s in
  let s1 := cycle rt cfg env s in
  (∀ a1 a2 n1 n2,
     notice_of_anchor rt a1 = Some n1 → notice_of_anchor rt a2 = Some n2 →
     n_title n1 = n_title n2 → n_url n1 = n_url n2 →
     n_id n1 = n_id n2 ∧ n1 = n2)
  ∧ filter (λ m, n_id m = n_id n) fresh
    = filter (λ m, n_id m = n_id n) (fetched_notices rt env)
  ∧ (∀ ev, ev ∈ new_notices_events cfg env fresh → ev ∈ journal s1)
  ∧ n_id n ∈ known_notice_ids s1
  ∧ (∀ m, n_id m = n_id n → m ∉ fresh_notices rt env' (run rt cfg later s1)).
Proof.
  intros Hr Hn Hid fresh s1.
  assert (n ∈ fresh) as Hfresh by (by apply list_elem_of_filter).
  assert (n_id n ∈ known_notice_ids s1
          ∧ ∀ ev, ev ∈ new_notices_events cfg env fresh → ev ∈ journal s1) as [Hk Hj].
  { destruct (cycle_effect rt cfg env s)
      as (evs & _ & _ & _ & _ & _ & [(_ & _ & Hnone)|(_ & _ & J & K)]).
    - fold fresh in Hnone. rewrite (Hnone Hr) in Hfresh. by apply elem_of_nil in Hfresh.
    - fold s1 fresh in J, K. rewrite J, K. split.
      + apply elem_of_union_r, elem_of_list_to_set, list_elem_of_fmap. by exists n.
      + intros ev Hev. rewrite !elem_of_app. auto. }
  split; [|split; [|split; [|split]]]; [| |done|done|].
  - intros a1 a2 n1 n2 H1%notice_of_anchor_id H2%notice_of_anchor_id Ht Hu.
    assert (n_id n1 = n_id n2) as Hi by (by rewrite H1, H2, Ht, Hu).
    split; [done|]. destruct n1, n2; simpl in *; congruence.
  - by apply filter_same_id_fresh.
  - intros m Hm. apply known_id_never_fresh. by rewrite Hm.
Qed.

(** The twin anchors: after the cycle their id is known. *)
Lemma C4_same_fingerprint_notified_in_one_cycle_witness :
  n_id twin_notice
  ∈ known_notice_ids (cycle ascii_runtime filter_cfg twin_env filter_state).
Proof.
  refine (proj1 (proj2 (proj2 (proj2
    (C4_same_fingerprint_notified_in_one_cycle ascii_runtime filter_cfg twin_env
       filter_state [] twin_env twin_notice _ _ _))))).
  - reflexivity.
  - apply (bool_decide_unpack _). vm_compute. exact I.
  - apply (bool_decide_unpack _). vm_compute. exact I.
Defined.

(** * Further properties of the code *)

(** ** Sorted documents and the market diff *)

#[global] Instance str_le_total : Total str_le.
Proof. intros a b. apply String.leb_total. Qed.

(** X1. [sorted(X)] of a set is sorted by byte order, has no duplicates,
    has as many entries as the set has elements, and read back as a set
    it is the set: this is the list written to both documents. *)
Theorem X1_sorted_set_spec (X : gset string) :
  Sorted str_le (sorted_set X)
  ∧ NoDup (sorted_set X)
  ∧ (∀ x, x ∈ sorted_set X ↔ x ∈ X)
  ∧ List.length (sorted_set X) = size X
  ∧ list_to_set (sorted_set X) = X.
Proof.
  assert (sorted_set X ≡ₚ elements X) as Hp by apply merge_sort_Permutation.
  split; [apply (Sorted_merge_sort str_le)|].
  split; [rewrite Hp; apply NoDup_elements|].
  split; [intros x; apply elem_of_sorted_set|].
  split; [by rewrite Hp|apply sorted_set_roundtrip].
Qed.

Section MarketDiff.

Lemma market_codes_all (markets : list market_record) :
  Forall has_market markets →
  market_codes markets = Ok (omap (λ m, m !! "market") markets).
Proof.
  induction 1 as [|m rest [code Hm] _ IH]; [done|].
  simpl. unfold market_of. rewrite Hm. simpl. by rewrite IH.
Qed.

Lemma market_codes_missing (markets : list market_record) :
  Exists (λ m, m !! "market" = None) markets →
  market_codes markets = Raise (KeyError "market").
Proof.
  induction markets as [|m rest IH]; intros HE; [by apply Exists_nil in HE|].
  simpl. unfold market_of. destruct (m !! "market") as [code|] eqn:Hm; [|done].
  simpl. apply Exists_cons in HE as [HE|HE]; [congruence|]. by rewrite IH.
Qed.

Lemma has_market_or_missing (markets : list market_record) :
  Forall has_market markets ∨ Exists (λ m, m !! "market" = None) markets.
Proof.
  induction markets as [|m rest [IH|IH]]; [by left| |].
  - destruct (m !! "market") as [code|] eqn:Hm.
    + left. constructor; [by exists code|done].
    + right. by left.
  - right. by right.
Qed.

End MarketDiff.

(** X2. When every record has a ["market"] key, [detect_new_markets]
    returns: [current] is the set of the codes of the records, the new list
    holds exactly the codes of [current] that are not in the old set, sorted
    and without duplicates, and it is empty exactly when the old set covers
    [current]. *)
Theorem X2_detect_new_markets_spec old_set markets :
  Forall has_market markets →
  ∃ new_markets current,
    detect_new_markets old_set markets = Ok (new_markets, current)
    ∧ (∀ c, c ∈ current ↔ ∃ m, m ∈ markets ∧ m !! "market" = Some c)
    ∧ (∀ c, c ∈ new_markets ↔ c ∈ current ∧ c ∉ old_set)
    ∧ Sorted str_le new_markets
    ∧ NoDup new_markets
    ∧ (new_markets = [] ↔ current ⊆ old_set).
Proof.
  intros Hall. unfold detect_new_markets. rewrite (market_codes_all _ Hall). simpl.
  eexists _, _. split; [done|]. split.
  { intros c. rewrite elem_of_list_to_set, list_elem_of_omap. done. }
  generalize (list_to_set (omap (λ m : market_record, m !! "market") markets)
                : gset string).
  intros current. split; [|split; [|split]].
  - intros c. rewrite elem_of_sorted_set. apply elem_of_difference.
  - apply (Sorted_merge_sort str_le).
  - unfold sorted_set, py_sorted. rewrite merge_sort_Permutation. apply NoDup_elements.
  - rewrite sorted_set_nil. split; intros H.
    + intros c Hc. destruct (decide (c ∈ old_set)) as [|Hn]; [done|].
      assert (c ∈ current ∖ old_set) as Hd by (by apply elem_of_difference).
      rewrite H in Hd. by apply elem_of_empty in Hd.
    + apply set_eq. intros c. rewrite elem_of_difference. split.
      * intros [Hc Hn]. destruct Hn. by apply H.
      * by intros ?%elem_of_empty.
Qed.

(** The scenario of the filter: two codes are new. *)
Lemma X2_detect_new_markets_spec_witness :
  ∃ new_markets current,
    detect_new_markets {[ "KRW-BTC" ]}
      [ catalogue_entry "KRW-BTC" "Bitcoin" "비트코인";
        catalogue_entry "KRW-ETH" "Ethereum" "이더리움" ] = Ok (new_markets, current)
    ∧ NoDup new_markets.
Proof.
  destruct (X2_detect_new_markets_spec {[ "KRW-BTC" ]}
              [ catalogue_entry "KRW-BTC" "Bitcoin" "비트코인";
                catalogue_entry "KRW-ETH" "Ethereum" "이더리움" ])
    as (new & cur & H & _ & _ & _ & Hnd & _).
  - repeat constructor; by eexists.
  - exists new, cur. exact (conj H Hnd).
Defined.

(** X3. The market diff does not depend on the order in which the
    catalogue lists its records (nor on repeated records): two fetches that
    are permutations of each other give the same result, the exception
    included. *)
Theorem X3_detect_new_markets_order_irrelevant old_set markets markets' :
  markets ≡ₚ markets' →
  detect_new_markets old_set markets = detect_new_markets old_set markets'.
Proof.
  intros Hp. unfold detect_new_markets.
  destruct (has_market_or_missing markets) as [Hall|Hex].
  - assert (Forall has_market markets') as Hall' by (by rewrite <- Hp).
    rewrite (market_codes_all _ Hall), (market_codes_all _ Hall'). simpl.
    assert (list_to_set (omap (λ m : market_record, m !! "market") markets)
            = (list_to_set (omap (λ m : market_record, m !! "market") markets')
                : gset string)) as ->; [|done].
    apply list_to_set_perm_L. by rewrite Hp.
  - assert (Exists (λ m : market_record, m !! "market" = None) markets') as Hex'
      by (by rewrite <- Hp).
    by rewrite (market_codes_missing _ Hex), (market_codes_missing _ Hex').
Qed.

Lemma X3_detect_new_markets_order_irrelevant_witness :
  detect_new_markets {[ "KRW-BTC" ]}
    [ catalogue_entry "KRW-BTC" "Bitcoin" "비트코인";
      catalogue_entry "KRW-ETH" "Ethereum" "이더리움" ]
  = detect_new_markets {[ "KRW-BTC" ]}
      [ catalogue_entry "KRW-ETH" "Ethereum" "이더리움";
        catalogue_entry "KRW-BTC" "Bitcoin" "비트코인" ].
Proof.
  apply X3_detect_new_markets_order_irrelevant. apply perm_swap.
Defined.

(** ** Cycles that have nothing to report *)

Section Settled.

Variable rt : runtime.
Variable cfg : config.

Lemma markets_step_settled env s :
  markets_settled env s → ∃ b, markets_step rt cfg env s = (Ok b, s).
Proof.
  unfold markets_settled. intros Hs.
  destruct (markets_resp env) as [e|markets] eqn:Hresp.
  { exists false. by eapply markets_step_fetch_fails. }
  destruct (detect_new_markets (known_markets s) markets) as [[new cur]|e] eqn:Hd.
  2:{ exists false. by eapply markets_step_bad_record. }
  pose proof Hd as (codes & Hc & -> & ->)%detect_new_markets_inv.
  rewrite Hc in Hs.
  assert (sorted_set (list_to_set codes ∖ known_markets s) = []) as Hnil.
  { apply sorted_set_nil, set_eq. intros c. rewrite elem_of_difference.
    split; [intros [H1 H2]; destruct H2; by apply Hs|by intros ?%elem_of_empty]. }
  rewrite Hnil in Hd. exists true. by eapply markets_step_no_news.
Qed.

Lemma filter_unknown_nil (known : gset string) (l : list notice) :
  (∀ n, n ∈ l → n_id n ∈ known) → filter (λ n, n_id n ∉ known) l = [].
Proof.
  induction l as [|n l IH]; intros Hall; [done|].
  rewrite filter_cons. destruct (decide (n_id n ∉ known)) as [Hn|_].
  - destruct Hn. apply Hall. by left.
  - apply IH. intros m Hm. apply Hall. by right.
Qed.

Lemma notices_step_settled env s :
  notices_settled rt env s → ∃ b, notices_step rt cfg env s = (Ok b, s).
Proof.
  intros Hs. destruct (notices_fetch_raises env) as [e|] eqn:Hr.
  { exists false. by eapply notices_step_raises. }
  exists true. apply notices_step_quiet; [done|].
  apply filter_unknown_nil. by apply Hs.
Qed.

(** A cycle with nothing to report touches the status only. *)
Lemma cycle_settled env s :
  markets_settled env s → notices_settled rt env s →
  let s' := cycle rt cfg env s in
  journal s' = journal s
  ∧ known_markets s' = known_markets s
  ∧ known_notice_ids s' = known_notice_ids s
  ∧ cache_file s' = cache_file s
  ∧ notices_cache_file s' = notices_cache_file s.
Proof.
  intros [b1 E1]%markets_step_settled [b2 E2]%notices_step_settled s'.
  unfold s', cycle, cycle_body, bind. rewrite E1, E2. by destruct b1.
Qed.

(** After a cycle, the same answers have nothing more to report. *)
Lemma cycle_makes_settled env s :
  markets_settled env (cycle rt cfg env s)
  ∧ notices_settled rt env (cycle rt cfg env s).
Proof.
  split.
  - unfold markets_settled.
    destruct (markets_resp env) as [e|markets] eqn:Hresp; [done|].
    destruct (market_codes markets) as [codes|e] eqn:Hc; [|done].
    destruct (markets_step_total rt cfg env s) as (b1 & s1 & E1).
    destruct (cycle_markets_side rt cfg env s b1 s1 E1) as [-> _].
    assert (detect_new_markets (known_markets s) markets
            = Ok (sorted_set (list_to_set codes ∖ known_markets s), list_to_set codes))
      as Hd by (unfold detect_new_markets; by rewrite Hc).
    destruct (sorted_set (list_to_set codes ∖ known_markets s)) as [|mk rest] eqn:Hnew.
    + rewrite (markets_step_no_news rt cfg env markets _ s Hresp Hd) in E1.
      injection E1 as _ <-. apply sorted_set_nil in Hnew.
      intros c Hc'. destruct (decide (c ∈ known_markets s)) as [|Hn]; [done|].
      assert (c ∈ list_to_set codes ∖ known_markets s) as H
        by (by apply elem_of_difference).
      rewrite Hnew in H. by apply elem_of_empty in H.
    + destruct (new_markets_message_ok rt cfg _ _ _ _ Hd) as (msg & Hmsg).
      rewrite (markets_step_news rt cfg env markets _ _ msg s Hresp Hd) in E1 by done.
      cbv zeta in E1. destruct (write_markets env); injection E1 as _ <-; done.
  - intros Hr n Hn.
    destruct (cycle_effect rt cfg env s)
      as (evs & _ & _ & _ & _ & _ & [(_ & K & Hnil)|(_ & _ & _ & K)]); rewrite K.
    + destruct (decide (n_id n ∈ known_notice_ids s)) as [|Hid]; [done|].
      assert (n ∈ fresh_notices rt env s) as Hf by (by apply list_elem_of_filter).
      rewrite (Hnil Hr) in Hf. by apply elem_of_nil in Hf.
    + destruct (decide (n_id n ∈ known_notice_ids s)) as [|Hid];
        [by apply elem_of_union_l|].
      apply elem_of_union_r, elem_of_list_to_set, list_elem_of_fmap.
      exists n. split; [done|]. by apply list_elem_of_filter.
Qed.

Lemma settled_same_answers env env' s :
  markets_resp env' = markets_resp env → notices_resp env' = notices_resp env →
  (markets_settled env s → markets_settled env' s)
  ∧ (notices_settled rt env s → notices_settled rt env' s).
Proof.
  intros Hm Hn. unfold markets_settled, notices_settled, notices_fetch_raises,
    fetched_notices. by rewrite Hm, Hn.
Qed.

End Settled.

(** X4. No duplicate alerts: right after a cycle, another cycle on the same
    answers of the two sources (whatever the sink and the disk do this
    time) calls no notify function and no send, and leaves the known sets
    and both documents as they are. *)
Theorem X4_same_answers_no_second_alert rt cfg env env' s :
  markets_resp env' = markets_resp env →
  notices_resp env' = notices_resp env →
  let s1 := cycle rt cfg env s in
  let s2 := cycle rt cfg env' s1 in
  journal s2 = journal s1
  ∧ known_markets s2 = known_markets s1
  ∧ known_notice_ids s2 = known_notice_ids s1
  ∧ cache_file s2 = cache_file s1
  ∧ notices_cache_file s2 = notices_cache_file s1.
Proof.
  intros Hm Hn s1 s2.
  destruct (cycle_makes_settled rt cfg env s) as [H1 H2].
  destruct (settled_same_answers rt env env' s1 Hm Hn) as [H1' H2'].
  apply cycle_settled; [by apply H1'|by apply H2'].
Qed.

(** The twin notices and a known catalogue, polled twice. *)
Lemma X4_same_answers_no_second_alert_witness :
  journal (cycle ascii_runtime filter_cfg twin_env
             (cycle ascii_runtime filter_cfg twin_env filter_state))
  = journal (cycle ascii_runtime filter_cfg twin_env filter_state).
Proof.
  exact (proj1 (X4_same_answers_no_second_alert ascii_runtime filter_cfg twin_env
                  twin_env filter_state eq_refl eq_refl)).
Defined.

(** ** What the market step leaves behind, exactly *)

Section MarketsStepEvents.

Variable rt : runtime.
Variable cfg : config.

Lemma markets_step_events env s :
  ∃ b s1,
    markets_step rt cfg env s = (Ok b, s1)
    ∧ (s1 = s
       ∨ ∃ markets new cur msg,
           markets_resp env = inr markets
           ∧ detect_new_markets (known_markets s) markets = Ok (new, cur)
           ∧ new ≠ []
           ∧ new_markets_message rt cfg new markets = Ok msg
           ∧ journal s1 = (journal s ++ new_markets_events cfg env new msg)%list
           ∧ known_markets s1 = cur
           ∧ b = match write_markets env with Written => true | _ => false end
           ∧ cache_file s1 = match write_markets env with
                             | Written => Json (markets_doc (sorted_set cur))
                             | OpenFails => cache_file s
                             | DumpFails => Corrupt
                             end).
Proof.
  destruct (markets_resp env) as [e|markets] eqn:Hresp.
  { exists false, s. split; [by eapply markets_step_fetch_fails|by left]. }
  destruct (detect_new_markets (known_markets s) markets) as [[new cur]|e] eqn:Hd.
  2:{ exists false, s. split; [by eapply markets_step_bad_record|by left]. }
  destruct new as [|mk0 rest].
  { exists true, s. split; [by eapply markets_step_no_news|by left]. }
  destruct (new_markets_message_ok rt cfg _ _ _ _ Hd) as (msg & Hmsg).
  rewrite (markets_step_news rt cfg env markets (mk0 :: rest) cur msg s) by done.
  cbv zeta.
  destruct (write_markets env); eexists _, _; (split; [done|]); right;
    exists markets, (mk0 :: rest), cur, msg; done.
Qed.

Lemma markets_step_settled_ok env markets codes s :
  markets_resp env = inr markets →
  market_codes markets = Ok codes →
  list_to_set codes ⊆ known_markets s →
  markets_step rt cfg env s = (Ok true, s).
Proof.
  intros Hresp Hc Hsub. eapply markets_step_no_news; [done|].
  unfold detect_new_markets. rewrite Hc. simpl. do 2 f_equal.
  apply sorted_set_nil, set_eq. intros c. rewrite elem_of_difference.
  split; [intros [H1 H2]; destruct H2; by apply Hsub|by intros ?%elem_of_empty].
Qed.

Lemma bot_calls_app evs1 evs2 :
  bot_calls (evs1 ++ evs2) = (bot_calls evs1 + bot_calls evs2)%nat.
Proof. unfold bot_calls. by rewrite filter_app, length_app. Qed.

Lemma bot_calls_send_events env text :
  (bot_calls (send_events cfg env text) ≤ 1)%nat
  ∧ (chat_id_empty cfg = true → bot_calls (send_events cfg env text) = 0).
Proof.
  unfold send_events. destruct (chat_id_empty cfg); simpl; [by auto|].
  split; [done|]. discriminate.
Qed.

Lemma bot_calls_new_markets_events env new msg :
  (bot_calls (new_markets_events cfg env new msg) ≤ 1)%nat
  ∧ (chat_id_empty cfg = true → bot_calls (new_markets_events cfg env new msg) = 0).
Proof.
  unfold new_markets_events. destruct msg as [text|]; [|by auto].
  apply (bot_calls_send_events env text).
Qed.

Lemma bot_calls_new_notices_events env items :
  (bot_calls (new_notices_events cfg env items) ≤ 1)%nat
  ∧ (chat_id_empty cfg = true → bot_calls (new_notices_events cfg env items) = 0).
Proof.
  unfold new_notices_events. destruct items as [|n rest]; [by auto|].
  apply (bot_calls_send_events env (notices_text (n :: rest))).
Qed.

End MarketsStepEvents.

(** X5. A cycle calls the bot at most twice, once for all the new markets
    and once for all the fresh notices, however many there are; with no
    destination configured it does not call the bot at all. *)
Theorem X5_at_most_two_bot_calls rt cfg env s :
  ∃ evs,
    journal (cycle rt cfg env s) = (journal s ++ evs)%list
    ∧ (bot_calls evs ≤ 2)%nat
    ∧ (chat_id_empty cfg = true → bot_calls evs = 0).
Proof.
  destruct (markets_step_events rt cfg env s) as (b1 & s1 & E1 & Hm).
  destruct (notices_step_effect rt cfg env s1) as (b2 & s2 & E2 & _ & _ & Hn).
  assert (journal (cycle rt cfg env s) = journal s2) as ->.
  { unfold cycle, cycle_body, bind. rewrite E1, E2. by destruct b1. }
  assert (∃ evs_m, journal s1 = (journal s ++ evs_m)%list ∧ (bot_calls evs_m ≤ 1)%nat
                   ∧ (chat_id_empty cfg = true → bot_calls evs_m = 0))
    as (evs_m & Jm & Bm & Zm).
  { destruct Hm as [->|(markets & new & cur & msg & _ & _ & _ & _ & J & _)].
    - exists []. rewrite app_nil_r. by auto.
    - exists (new_markets_events cfg env new msg). split; [done|].
      apply bot_calls_new_markets_events. }
  assert (∃ evs_n, journal s2 = (journal s1 ++ evs_n)%list ∧ (bot_calls evs_n ≤ 1)%nat
                   ∧ (chat_id_empty cfg = true → bot_calls evs_n = 0))
    as (evs_n & Jn & Bn & Zn).
  { destruct Hn as [(J & _)|(_ & _ & J & _)].
    - exists []. rewrite app_nil_r. by auto.
    - eexists. split; [exact J|]. apply bot_calls_new_notices_events. }
  exists (evs_m ++ evs_n)%list. rewrite Jn, Jm, app_assoc, bot_calls_app.
  split; [done|]. split; [lia|]. intros Hc. rewrite (Zm Hc), (Zn Hc). done.
Qed.

(** X6. One record without a ["market"] key makes the whole market step
    fail with [KeyError], whatever the other records say: the cycle ends
    with [ok = false], the known-market set and the market document are
    untouched, and [notify_new_markets] is not called. *)
Theorem X6_missing_market_key_fails_step rt cfg env markets s :
  markets_resp env = inr markets →
  Exists (λ m, m !! "market" = None) markets →
  let s' := cycle rt cfg env s in
  detect_new_markets (known_markets s) markets = Raise (KeyError "market")
  ∧ markets_step rt cfg env s = (Ok false, s)
  ∧ last_cycle_ok s' = false
  ∧ known_markets s' = known_markets s
  ∧ cache_file s' = cache_file s
  ∧ (∀ new, NotifyNewMarkets new ∈ journal s' → NotifyNewMarkets new ∈ journal s).
Proof.
  intros Hresp Hex s'.
  assert (detect_new_markets (known_markets s) markets = Raise (KeyError "market")) as Hd.
  { unfold detect_new_markets. by rewrite (market_codes_missing _ Hex). }
  pose proof (markets_step_bad_record rt cfg env markets _ s Hresp Hd) as E1.
  destruct (cycle_markets_side rt cfg env s _ _ E1) as [Hk Hc].
  destruct (cycle_status rt cfg env s) as [Hs _].
  unfold markets_ok in Hs. rewrite E1 in Hs.
  split; [done|]. split; [done|]. split; [done|]. split; [done|]. split; [done|].
  intros new Hin.
  destruct (notices_step_effect rt cfg env s) as (b2 & s2 & E2 & _ & _ & Hn).
  assert (journal s' = journal s2) as J.
  { unfold s', cycle, cycle_body, bind. by rewrite E1, E2. }
  rewrite J in Hin. destruct Hn as [(Jn & _)|(_ & _ & Jn & _)];
    rewrite Jn in Hin; [done|].
  apply elem_of_app in Hin as [?|Hin]; [done|].
  unfold new_notices_events in Hin. apply elem_of_cons in Hin as [?|Hin]; [done|].
  destruct (fresh_notices rt env s); [by apply elem_of_nil in Hin|].
  by apply send_events_only_sends in Hin.
Qed.

(** The catalogue with a broken record, polled from the filter scenario. *)
Lemma X6_missing_market_key_fails_step_witness :
  last_cycle_ok (cycle ascii_runtime filter_cfg broken_env filter_state) = false.
Proof.
  refine (proj1 (proj2 (proj2
    (X6_missing_market_key_fails_step ascii_runtime filter_cfg broken_env _
       filter_state eq_refl _)))).
  right. left. reflexivity.
Defined.

(** ** Failed writes *)

(** X7. When new markets are found and the write of the market document
    fails, the alert has been issued and the known-market set in memory has
    moved on, but the cycle ends with [ok = false] and the document is the
    old one or unreadable.  The next cycle on the same catalogue finds
    nothing new, attempts no write and ends with [ok = true], the document
    still not rewritten. *)
Theorem X7_failed_write_after_alert rt cfg env env' markets new cur s :
  markets_resp env = inr markets →
  detect_new_markets (known_markets s) markets = Ok (new, cur) →
  new ≠ [] →
  write_markets env ≠ Written →
  markets_resp env' = markets_resp env →
  let s1 := cycle rt cfg env s in
  let s2 := cycle rt cfg env' s1 in
  last_cycle_ok s1 = false
  ∧ known_markets s1 = cur
  ∧ NotifyNewMarkets new ∈ journal s1
  ∧ (cache_file s1 = cache_file s ∨ cache_file s1 = Corrupt)
  ∧ last_cycle_ok s2 = true
  ∧ cache_file s2 = cache_file s1.
Proof.
  intros Hresp Hd Hne Hw Hresp' s1 s2.
  destruct (new_markets_message_ok rt cfg _ _ _ _ Hd) as (msg & Hmsg).
  pose proof (markets_step_news rt cfg env markets new cur msg s Hresp Hd Hne Hmsg) as E1.
  cbv zeta in E1.
  destruct (markets_step_total rt cfg env s) as (b1 & s1' & E1').
  destruct (cycle_markets_side rt cfg env s b1 s1' E1') as [Hk Hc].
  pose proof (cycle_journal_after_markets rt cfg env s b1 s1' E1') as [k Hj].
  destruct (cycle_status rt cfg env s) as [Hs _].
  unfold markets_ok in Hs. rewrite E1' in Hs. simpl in Hs.
  fold s1 in Hk, Hc, Hj, Hs. rewrite E1' in E1.
  assert (b1 = false ∧ known_markets s1' = cur
          ∧ NotifyNewMarkets new ∈ journal s1'
          ∧ (cache_file s1' = cache_file s ∨ cache_file s1' = Corrupt))
    as (-> & Hk1 & Hj1 & Hc1).
  { destruct (write_markets env); [done|..]; injection E1 as -> ->; simpl;
      (split; [done|]); (split; [done|]);
      (split; [apply elem_of_app; right; by left|by auto]). }
  pose proof Hd as (codes & Hcodes & Hcur & _)%detect_new_markets_inv.
  assert (markets_step rt cfg env' s1 = (Ok true, s1)) as E2.
  { eapply markets_step_settled_ok; [by rewrite Hresp'|done|].
    rewrite Hk, Hk1, Hcur. done. }
  destruct (cycle_markets_side rt cfg env' s1 _ _ E2) as [_ Hc2].
  destruct (cycle_status rt cfg env' s1) as [Hs2 _].
  unfold markets_ok in Hs2. rewrite E2 in Hs2.
  split; [done|]. split; [congruence|].
  split; [rewrite Hj; apply elem_of_app; by left|].
  split; [by rewrite Hc|]. done.
Qed.

(** The filter scenario on a read-only disk. *)
Lemma X7_failed_write_after_alert_witness :
  last_cycle_ok (cycle ascii_runtime filter_cfg read_only_env filter_state) = false.
Proof.
  refine (proj1 (X7_failed_write_after_alert ascii_runtime filter_cfg read_only_env
                   read_only_env _ ["JPY-XRP"; "KRW-ETH"] _ filter_state
                   eq_refl _ _ _ eq_refl)).
  - vm_compute. reflexivity.
  - discriminate.
  - discriminate.
Defined.

(** ** The settings gate messages only *)

Section Settings.

Variable rt : runtime.
Variables cfg cfg' : config.
Variable f : string → bool.

Lemma markets_step_settings env s s' :
  same_but_journal s s' →
  ∃ b s1 s1',
    markets_step rt cfg env s = (Ok b, s1)
    ∧ markets_step rt cfg' (with_sink f env) s' = (Ok b, s1')
    ∧ same_but_journal s1 s1'.
Proof.
  intros Hs. pose proof Hs as (Hc & Hn & Ho & Ha & Hk & Hi).
  destruct (markets_resp env) as [e|markets] eqn:Hresp.
  { exists false, s, s'. split; [by eapply markets_step_fetch_fails|].
    split; [by eapply markets_step_fetch_fails|done]. }
  destruct (detect_new_markets (known_markets s) markets) as [[new cur]|e] eqn:Hd.
  2:{ exists false, s, s'. split; [by eapply markets_step_bad_record|].
      split; [|done]. eapply markets_step_bad_record; [done|]. by rewrite <- Hk. }
  destruct new as [|mk rest].
  { exists true, s, s'. split; [by eapply markets_step_no_news|].
    split; [|done]. eapply markets_step_no_news; [done|]. by rewrite <- Hk. }
  destruct (new_markets_message_ok rt cfg _ _ _ _ Hd) as (msg & Hmsg).
  destruct (new_markets_message_ok rt cfg' _ _ _ _ Hd) as (msg' & Hmsg').
  rewrite (markets_step_news rt cfg env markets (mk :: rest) cur msg s) by done.
  rewrite (markets_step_news rt cfg' (with_sink f env) markets (mk :: rest) cur msg' s')
    by (try done; by rewrite <- Hk).
  cbv zeta. change (write_markets (with_sink f env)) with (write_markets env).
  destruct (write_markets env); eexists _, _, _; (split; [done|]; split; [done|]);
    unfold same_but_journal; simpl; done.
Qed.

Lemma notices_step_settings env s s' :
  same_but_journal s s' →
  ∃ b s1 s1',
    notices_step rt cfg env s = (Ok b, s1)
    ∧ notices_step rt cfg' (with_sink f env) s' = (Ok b, s1')
    ∧ same_but_journal s1 s1'.
Proof.
  intros Hs. pose proof Hs as (Hc & Hn & Ho & Ha & Hk & Hi).
  destruct (notices_fetch_raises env) as [e|] eqn:Hr.
  { exists false, s, s'. split; [by eapply notices_step_raises|].
    split; [by eapply notices_step_raises|done]. }
  assert (fresh_notices rt (with_sink f env) s' = fresh_notices rt env s) as Hfresh.
  { unfold fresh_notices. by rewrite Hi. }
  destruct (fresh_notices rt env s) as [|n rest] eqn:Hf.
  { exists true, s, s'. split; [by eapply notices_step_quiet|].
    split; [|done]. by eapply notices_step_quiet. }
  rewrite (notices_step_fresh rt cfg env s) by (try done; by rewrite Hf).
  rewrite (notices_step_fresh rt cfg' (with_sink f env) s')
    by (try done; by rewrite Hfresh).
  cbv zeta. rewrite Hfresh, Hf.
  change (write_notices (with_sink f env)) with (write_notices env).
  destruct (write_notices env); eexists _, _, _; (split; [done|]; split; [done|]);
    unfold same_but_journal; simpl; rewrite ?Hi; done.
Qed.

Lemma cycle_settings env s s' :
  same_but_journal s s' →
  same_but_journal (cycle rt cfg env s) (cycle rt cfg' (with_sink f env) s').
Proof.
  intros Hs.
  destruct (markets_step_settings env s s' Hs) as (b1 & s1 & s1' & E1 & E1' & Hs1).
  destruct (notices_step_settings env s1 s1' Hs1) as (b2 & s2 & s2' & E2 & E2' & Hs2).
  unfold cycle, cycle_body, bind. rewrite E1, E1', E2, E2'.
  destruct Hs2 as (? & ? & ? & ? & ? & ?).
  destruct b1; unfold same_but_journal; simpl; done.
Qed.

End Settings.

(** X8. The prefix filter and the destination decide only what is sent.
    Under any two settings, and whatever the sink does, a run over the same
    answers of the sources and of the disk ends with the same known sets,
    the same two documents and the same status. *)
Theorem X8_settings_gate_messages_only rt cfg cfg' f envs s :
  same_but_journal (run rt cfg envs s) (run rt cfg' (map (with_sink f) envs) s).
Proof.
  assert (∀ s s', same_but_journal s s' →
            same_but_journal (run rt cfg envs s)
                             (run rt cfg' (map (with_sink f) envs) s')) as H.
  { induction envs as [|env envs IH]; intros s1 s2 Hs; [done|].
    cbn [map]. rewrite !run_cons. by apply IH, cycle_settings. }
  by apply H.
Qed.

(** ** Start-up, bootstrap and restart *)

Section Restart.

Variable rt : runtime.
Variable cfg : config.

Lemma main_loop_init_eq env s :
  main_loop_init cfg env s =
    (Ok tt, log_events (send_events cfg env "🚀 Upbit бот запущен")
              (set_known_notice_ids (stored_notice_ids s)
                 (set_known_markets (stored_markets s) s))).
Proof.
  unfold main_loop_init, bind, gets, modify. by rewrite send_message_eq.
Qed.

Lemma bootstrap_baseline_written env markets codes s :
  markets_resp env = inr markets →
  market_codes markets = Ok codes →
  write_markets env = Written →
  notices_fetch_raises env = None →
  write_notices env = Written →
  bootstrap_baseline rt env s =
    (Ok tt,
     set_file NOTICES_CACHE_FILE
       (Json (ids_doc (sorted_set (list_to_set (map n_id (fetched_notices rt env))))))
       (set_file CACHE_FILE (Json (markets_doc (sorted_set (list_to_set codes)))) s)).
Proof.
  intros Hresp Hc Hw Hr Hwn.
  unfold bootstrap_baseline, try_except, bind, fetch_markets, lift, ret.
  rewrite Hresp, Hc, Hw. simpl. unfold modify.
  by rewrite fetch_listing_notices_eq, Hr, Hwn.
Qed.

Lemma stored_markets_doc (l : list string) s :
  cache_file s = Json (markets_doc l) → stored_markets s = list_to_set l.
Proof.
  intros H. unfold stored_markets, load_cache, get_file. rewrite H.
  unfold markets_doc. by rewrite lookup_singleton_eq.
Qed.

Lemma stored_notice_ids_doc (l : list string) s :
  notices_cache_file s = Json (ids_doc l) → stored_notice_ids s = list_to_set l.
Proof.
  intros H. unfold stored_notice_ids, load_cache, get_file. rewrite H.
  unfold ids_doc. by rewrite lookup_singleton_eq.
Qed.

Lemma notices_step_events env s :
  ∃ b s1,
    notices_step rt cfg env s = (Ok b, s1)
    ∧ (s1 = s
       ∨ (known_notice_ids s1
          = known_notice_ids s ∪ list_to_set (map n_id (fresh_notices rt env s))
          ∧ notices_cache_file s1
            = match write_notices env with
              | Written => Json (ids_doc (sorted_set (known_notice_ids s1)))
              | OpenFails => notices_cache_file s
              | DumpFails => Corrupt
              end)).
Proof.
  destruct (notices_fetch_raises env) as [e|] eqn:Hr.
  { exists false, s. split; [by eapply notices_step_raises|by left]. }
  destruct (fresh_notices rt env s) as [|n rest] eqn:Hf.
  { exists true, s. split; [by eapply notices_step_quiet|by left]. }
  rewrite (notices_step_fresh rt cfg env s) by (try done; by rewrite Hf).
  cbv zeta. rewrite Hf.
  destruct (write_notices env); eexists _, _; (split; [done|]); right; done.
Qed.

Lemma cycle_in_sync env s :
  write_markets env = Written → write_notices env = Written →
  in_sync s → in_sync (cycle rt cfg env s).
Proof.
  intros Hwm Hwn [Hm Hn].
  destruct (markets_step_events rt cfg env s) as (b1 & s1 & E1 & H1).
  destruct (notices_step_events env s1) as (b2 & s2 & E2 & H2).
  assert (same_notices_side s s1) as [Hi1 Hn1].
  { eapply (preserves_run _ _ s), E1. apply markets_step_frame; frame_side. }
  assert (same_markets_side s1 s2) as [Hk2 Hc2].
  { eapply (preserves_run _ _ s1), E2. apply notices_step_frame; frame_side. }
  assert (in_sync s1) as [Hm1 Hn1'].
  { split; [|by rewrite Hn1, Hi1].
    destruct H1 as [->|(markets & new & cur & msg & _ & _ & _ & _ & _ & Hk & _ & Hc)];
      [done|]. rewrite Hwm in Hc. by rewrite Hc, Hk. }
  assert (in_sync s2) as [Hm2 Hn2].
  { split; [by rewrite Hc2, Hk2|].
    destruct H2 as [->|[_ Hc]]; [done|]. by rewrite Hwn in Hc. }
  unfold cycle, cycle_body, bind. rewrite E1, E2. by destruct b1.
Qed.

End Restart.

(** X10. No alert storm after bootstrap: when a document is missing at
    start-up and both sources answer and both writes succeed, the two
    documents hold the sorted codes and ids of the answers, the loop starts
    from exactly these sets, only the service-started message has been
    attempted, and a first cycle on the same answers calls no notify
    function and no send. *)
Theorem X10_bootstrap_then_silent rt cfg env0 env markets f1 f2 :
  cache_not_found (initial_state f1 f2) = true →
  markets_resp env0 = inr markets →
  Forall has_market markets →
  write_markets env0 = Written →
  notices_fetch_raises env0 = None →
  write_notices env0 = Written →
  markets_resp env = markets_resp env0 →
  notices_resp env = notices_resp env0 →
  let codes := omap (λ m : market_record, m !! "market") markets in
  let ids := map n_id (fetched_notices rt env0) in
  let s0 := (startup rt cfg env0 (initial_state f1 f2)).2 in
  cache_file s0 = Json (markets_doc (sorted_set (list_to_set codes)))
  ∧ notices_cache_file s0 = Json (ids_doc (sorted_set (list_to_set ids)))
  ∧ known_markets s0 = list_to_set codes
  ∧ known_notice_ids s0 = list_to_set ids
  ∧ journal s0 = send_events cfg env0 "🚀 Upbit бот запущен"
  ∧ journal (cycle rt cfg env s0) = journal s0.
Proof.
  intros Hmiss Hresp Hall Hwm Hr Hwn Hresp' Hn' codes ids s0.
  pose proof (market_codes_all _ Hall) as Hc. fold codes in Hc.
  assert (s0 = log_events (send_events cfg env0 "🚀 Upbit бот запущен")
                 (set_known_notice_ids (list_to_set ids)
                    (set_known_markets (list_to_set codes)
                       (set_file NOTICES_CACHE_FILE
                          (Json (ids_doc (sorted_set (list_to_set ids))))
                          (set_file CACHE_FILE
                             (Json (markets_doc (sorted_set (list_to_set codes))))
                             (initial_state f1 f2)))))) as Hs0.
  { unfold s0, startup, bind, gets. rewrite Hmiss.
    rewrite (bootstrap_baseline_written rt env0 markets codes) by done.
    rewrite main_loop_init_eq. simpl. f_equal.
    rewrite (stored_markets_doc (sorted_set (list_to_set codes))) by done.
    rewrite (stored_notice_ids_doc (sorted_set (list_to_set ids))) by done.
    by rewrite !sorted_set_roundtrip. }
  assert (known_markets s0 = list_to_set codes
          ∧ known_notice_ids s0 = list_to_set ids) as [Hk Hi] by (by rewrite Hs0).
  split; [by rewrite Hs0|]. split; [by rewrite Hs0|]. split; [done|]. split; [done|].
  split; [by rewrite Hs0|].
  apply cycle_settled.
  - unfold markets_settled. rewrite Hresp', Hresp, Hc, Hk. done.
  - intros _ n Hn. rewrite Hi. apply elem_of_list_to_set, list_elem_of_fmap.
    exists n. split; [done|]. unfold fetched_notices in *. by rewrite <- Hn'.
Qed.

(** First start with no document at all, then a poll of the same catalogue. *)
Lemma X10_bootstrap_then_silent_witness :
  journal (cycle ascii_runtime filter_cfg filter_env
             (startup ascii_runtime filter_cfg filter_env
                (initial_state Missing Missing)).2)
  = journal (startup ascii_runtime filter_cfg filter_env
               (initial_state Missing Missing)).2.
Proof.
  refine (proj2 (proj2 (proj2 (proj2 (proj2
    (X10_bootstrap_then_silent ascii_runtime filter_cfg filter_env filter_env _
       Missing Missing eq_refl eq_refl _ eq_refl eq_refl eq_refl eq_refl eq_refl)))))).
  repeat constructor; by eexists.
Defined.

(** X11. As long as the writes succeed, the documents follow the memory:
    if both documents hold the sorted known sets before a run of cycles,
    they do after it, so a restart at that point (the set-up of the loop
    reading the documents) resumes with the same known sets. *)
Theorem X11_documents_follow_memory rt cfg envs env0 s :
  in_sync s →
  Forall (λ env, write_markets env = Written ∧ write_notices env = Written) envs →
  let s' := run rt cfg envs s in
  in_sync s'
  ∧ known_markets (main_loop_init cfg env0 s').2 = known_markets s'
  ∧ known_notice_ids (main_loop_init cfg env0 s').2 = known_notice_ids s'.
Proof.
  intros Hs Hw s'.
  assert (in_sync s') as Hs'.
  { unfold s'. clear s'. revert s Hs.
    induction Hw as [|env envs [Hwm Hwn] _ IH]; intros s Hs; [done|].
    rewrite run_cons. by apply IH, cycle_in_sync. }
  split; [done|]. destruct Hs' as [Hm Hn]. rewrite main_loop_init_eq. simpl.
  rewrite (stored_markets_doc _ _ Hm), (stored_notice_ids_doc _ _ Hn).
  by rewrite !sorted_set_roundtrip.
Qed.

(** The filter scenario, then a restart. *)
Lemma X11_documents_follow_memory_witness :
  known_markets (main_loop_init filter_cfg filter_env
                   (run ascii_runtime filter_cfg [filter_env] filter_state)).2
  = known_markets (run ascii_runtime filter_cfg [filter_env] filter_state).
Proof.
  refine (proj1 (proj2 (X11_documents_follow_memory ascii_runtime filter_cfg
                          [filter_env] filter_env filter_state _ _))).
  - split; vm_compute; reflexivity.
  - repeat constructor.
Defined.



(** ** The notice adapter *)

Lemma substring_length_le (m : nat) (s : string) :
  (String.length (String.substring 0 m s) ≤ m)%nat.
Proof.
  revert s. induction m as [|m IH]; intros [|c s]; simpl; try lia.
  specialize (IH s). lia.
Qed.

Lemma notice_of_anchor_well_formed rt anchors a n :
  a ∈ anchors → notice_of_anchor rt a = Some n → well_formed_notice rt anchors n.
Proof.
  intros Ha. unfold notice_of_anchor.
  destruct (bool_decide (str_strip rt (a_text a) = "")) eqn:Ht; [done|].
  destruct (bool_decide (a_href a = "")) eqn:Hh; [done|]. simpl.
  apply bool_decide_eq_false in Ht, Hh.
  destruct (listing_intent rt _) eqn:Hl; [|done].
  destruct (NOTICE_MARKET_PATTERN rt _) eqn:Hp; [|done]. simpl.
  intros [= <-]. unfold well_formed_notice. simpl.
  split; [done|]. split.
  { destruct (String.prefix "/" (a_href a)); [done|done]. }
  split.
  { destruct (String.prefix "/" (a_href a)) eqn:E; [done|done]. }
  split; [done|]. split; [done|]. split; [done|].
  split; [apply substring_length_le|].
  exists a. split; [done|]. split; [done|].
  destruct (String.prefix "/" (a_href a)); auto.
Qed.

(** X13. When the notice page is fetched, the adapter returns (it does not
    raise and changes no state) at most one item per anchor, and every item
    is well formed: a non-empty stripped title that matches both the
    listing pattern and the currency pattern, a non-empty URL that does not
    start with a slash (a site-relative link has been given the host), and
    an id of at most 16 characters cut from the digest of title and URL. *)
Theorem X13_scraped_items_well_formed rt env anchors s :
  notices_resp env = inr anchors →
  ∃ items,
    fetch_listing_notices rt env s = (Ok items, s)
    ∧ (List.length items ≤ List.length anchors)%nat
    ∧ Forall (well_formed_notice rt anchors) items.
Proof.
  intros Hresp. exists (omap (notice_of_anchor rt) anchors).
  split; [unfold fetch_listing_notices; by rewrite Hresp|].
  split.
  - clear Hresp. unfold omap. induction anchors as [|a l IH]; [done|].
    simpl. destruct (notice_of_anchor rt a); simpl; lia.
  - apply Forall_forall. intros n (a & Ha & Hn)%list_elem_of_omap.
    by eapply notice_of_anchor_well_formed.
Qed.

(** The page with the twin anchors. *)
Lemma X13_scraped_items_well_formed_witness :
  ∃ items,
    fetch_listing_notices ascii_runtime twin_env filter_state = (Ok items, filter_state)
    ∧ Forall (well_formed_notice ascii_runtime [twin_anchor_1; twin_anchor_2]) items.
Proof.
  destruct (X13_scraped_items_well_formed ascii_runtime twin_env
              [twin_anchor_1; twin_anchor_2] filter_state eq_refl)
    as (items & H1 & _ & H2).
  exists items. exact (conj H1 H2).
Defined.

(** ** What enters the known sets *)

(** X14. Nothing enters a known set unannounced: a code that is in the
    known-market set after a cycle and was not before is in the list passed
    to [notify_new_markets] in a call that the journal holds, and an id
    that is new in the known notice ids belongs to an item passed to
    [notify_new_notices]. *)
Theorem X14_known_only_after_notify rt cfg env s :
  let s' := cycle rt cfg env s in
  (∀ c, c ∈ known_markets s' →
        c ∈ known_markets s
        ∨ ∃ new, c ∈ new ∧ NotifyNewMarkets new ∈ journal s')
  ∧ (∀ i, i ∈ known_notice_ids s' →
          i ∈ known_notice_ids s
          ∨ ∃ items n, n ∈ items ∧ n_id n = i ∧ NotifyNewNotices items ∈ journal s').
Proof.
  intros s'. split.
  - intros c Hc.
    destruct (markets_step_events rt cfg env s) as (b1 & s1 & E1 & H1).
    destruct (cycle_markets_side rt cfg env s b1 s1 E1) as [Hk _].
    pose proof (cycle_journal_after_markets rt cfg env s b1 s1 E1) as [k Hj].
    fold s' in Hk, Hj. rewrite Hk in Hc.
    destruct H1 as [->|(markets & new & cur & msg & _ & Hd & _ & _ & J & Hcur & _)];
      [by left|].
    destruct (decide (c ∈ known_markets s)) as [|Hn]; [by left|]. right.
    exists new. split.
    + apply (elem_of_new_markets _ _ _ _ _ Hd). by rewrite <- Hcur.
    + rewrite Hj, J. apply elem_of_app. left. apply elem_of_app. right. by left.
  - intros i Hi.
    destruct (cycle_effect rt cfg env s)
      as (evs & _ & _ & _ & _ & _ & [(_ & K & _)|(_ & _ & J & K)]);
      fold s' in K; rewrite K in Hi; [by left|].
    apply elem_of_union in Hi as [?|Hi]; [by left|]. right.
    apply elem_of_list_to_set, list_elem_of_fmap in Hi as (n & -> & Hn).
    exists (fresh_notices rt env s), n. split; [done|]. split; [done|].
    fold s' in J. rewrite J. rewrite !elem_of_app. right. right. by left.
Qed.

(** ** Records that share a code *)

Lemma market_info_app l1 l2 info :
  market_info (l1 ++ l2) info = rbind (market_info l1 info) (market_info l2).
Proof.
  revert info. induction l1 as [|m l1 IH]; intros info; [done|].
  simpl. destruct (market_of m) as [code|e]; simpl; [apply IH|done].
Qed.

Lemma market_info_untouched l info info' c :
  market_info l info = Ok info' →
  Forall (λ m : market_record, m !! "market" ≠ Some c) l →
  info' !! c = info !! c.
Proof.
  revert info. induction l as [|m l IH]; intros info Hi Hall; simpl in Hi.
  - by injection Hi as <-.
  - apply Forall_cons in Hall as [Hm Hall]. unfold market_of in Hi.
    destruct (m !! "market") as [code|] eqn:E; simpl in Hi; [|done].
    rewrite (IH _ Hi Hall). apply lookup_insert_ne. congruence.
Qed.

(** X15. When several records carry the same code, the message line of
    that code is built from the last of them: [info[c]] is the last record
    of the fetch whose ["market"] is [c]. *)
Theorem X15_last_record_wins before m after c info :
  market_info (before ++ m :: after) ∅ = Ok info →
  m !! "market" = Some c →
  Forall (λ m' : market_record, m' !! "market" ≠ Some c) after →
  info !! c = Some m
  ∧ market_line info c = Ok (line_of m c).
Proof.
  intros Hi Hm Hafter. rewrite market_info_app in Hi.
  destruct (market_info before ∅) as [info1|e]; simpl in Hi; [|done].
  unfold market_of in Hi. rewrite Hm in Hi. simpl in Hi.
  assert (info !! c = Some m) as Hc.
  { rewrite (market_info_untouched _ _ _ c Hi Hafter). apply lookup_insert_eq. }
  split; [done|]. unfold market_line. by rewrite Hc.
Qed.

(** KRW-ETH listed twice, the second time without its Korean name. *)
Lemma X15_last_record_wins_witness :
  ∃ info,
    market_info [ catalogue_entry "KRW-ETH" "Ethereum" "이더리움";
                  {[ "market" := "KRW-ETH"; "english_name" := "Ether" ]} ] ∅ = Ok info
    ∧ market_line info "KRW-ETH" = Ok "• KRW-ETH — Ether / ".
Proof.
  eexists. split; [reflexivity|].
  exact (proj2 (X15_last_record_wins
                  [catalogue_entry "KRW-ETH" "Ethereum" "이더리움"]
                  {[ "market" := "KRW-ETH"; "english_name" := "Ether" ]} []
                  "KRW-ETH" _ eq_refl eq_refl (Forall_nil_2 _))).
Defined.

(** ** Settings *)

Lemma split_comma_not_nil s : split_comma s ≠ [].
Proof.
  destruct s as [|c r]; [done|]. simpl.
  destruct (Ascii.eqb c ","); [done|]. by destruct (split_comma r).
Qed.

Lemma concat_cons_not_nil sep x (l : list string) :
  l ≠ [] → String.concat sep (x :: l) = x ++ sep ++ String.concat sep l.
Proof. by destruct l. Qed.

Lemma split_comma_join s : String.concat "," (split_comma s) = s.
Proof.
  induction s as [|c r IH]; [done|]. simpl.
  destruct (Ascii.eqb c ",") eqn:E.
  - apply Ascii.eqb_eq in E as ->.
    rewrite concat_cons_not_nil by apply split_comma_not_nil. simpl. by rewrite IH.
  - pose proof (split_comma_not_nil r) as Hne.
    destruct (split_comma r) as [|piece pieces]; [done|].
    destruct pieces as [|p2 rest]; simpl in *; by rewrite <- IH.
Qed.

Lemma split_comma_pieces s : Forall (λ p, no_comma p = true) (split_comma s).
Proof.
  induction s as [|c r IH]; [by repeat constructor|]. simpl.
  destruct (Ascii.eqb c ",") eqn:E; [by constructor|].
  destruct (split_comma r) as [|piece pieces]; [repeat constructor; simpl; by rewrite E|].
  apply Forall_cons in IH as [Hp Hrest]. constructor; [|done].
  simpl. by rewrite E, Hp.
Qed.

Lemma split_comma_piece p : no_comma p = true → split_comma p = [p].
Proof.
  induction p as [|c r IH]; [done|]. simpl.
  intros [Hc Hr]%andb_true_iff. apply negb_true_iff in Hc. rewrite Hc.
  by rewrite (IH Hr).
Qed.

Lemma split_comma_piece_comma p rest :
  no_comma p = true → split_comma (p ++ "," ++ rest) = p :: split_comma rest.
Proof.
  induction p as [|c r IH]; [done|]. simpl.
  intros [Hc Hr]%andb_true_iff. apply negb_true_iff in Hc. rewrite Hc.
  by rewrite (IH Hr).
Qed.

(** X16. Splitting a setting at its commas and joining the pieces with
    commas are inverse to each other: the pieces of any string are a
    non-empty list of comma-free strings whose join is the string, and any
    non-empty list of comma-free strings is the list of pieces of its
    join. *)
Theorem X16_split_comma_join_inverse :
  (∀ s, String.concat "," (split_comma s) = s
        ∧ split_comma s ≠ []
        ∧ Forall (λ p, no_comma p = true) (split_comma s))
  ∧ (∀ pieces, pieces ≠ [] → Forall (λ p, no_comma p = true) pieces →
               split_comma (String.concat "," pieces) = pieces).
Proof.
  split.
  - intros s. split; [apply split_comma_join|].
    split; [apply split_comma_not_nil|apply split_comma_pieces].
  - intros pieces Hne Hall. induction Hall as [|p rest Hp Hrest IH]; [done|].
    destruct rest as [|q rest]; [by apply split_comma_piece|].
    rewrite concat_cons_not_nil by done.
    rewrite split_comma_piece_comma by done. by rewrite IH.
Qed.

(** X17. A [FILTER_MARKETS] setting whose pieces are all blank gives an
    empty prefix list, without any error; then no market code passes the
    filter, and [notify_new_markets] records its call and returns without
    building a message or calling [send_message], whatever it is given. *)
Theorem X17_blank_filter_disables_market_alerts rt chat raw env new_markets markets s :
  Forall (λ p, str_strip rt p = "") (split_comma raw) →
  let cfg := load_config rt chat (Some raw) in
  FILTER_MARKETS cfg = []
  ∧ (∀ code, _passes_prefix_filter rt cfg code = false)
  ∧ new_markets_message rt cfg new_markets markets = Ok None
  ∧ notify_new_markets rt cfg env new_markets markets s
    = (Ok tt, log_events [NotifyNewMarkets new_markets] s).
Proof.
  intros Hblank cfg.
  assert (FILTER_MARKETS cfg = []) as Hf.
  { unfold cfg, load_config, parse_filter_markets. simpl.
    induction Hblank as [|p rest Hp _ IH]; [done|].
    rewrite filter_cons. by destruct (decide (str_strip rt p ≠ "")). }
  assert (∀ code, _passes_prefix_filter rt cfg code = false) as Hpass.
  { intros code. unfold _passes_prefix_filter. by rewrite Hf. }
  assert (new_markets_message rt cfg new_markets markets = Ok None) as Hmsg.
  { unfold new_markets_message.
    assert (filter (λ mk, _passes_prefix_filter rt cfg mk = true) new_markets = [])
      as ->; [|done].
    induction new_markets as [|mk rest IH]; [done|].
    rewrite filter_cons, Hpass. by destruct (decide (false = true)). }
  split; [done|]. split; [done|]. split; [done|].
  by rewrite (notify_new_markets_eq rt cfg env new_markets markets None s Hmsg).
Qed.

(** The setting [" , ,"] under the ASCII runtime. *)
Lemma X17_blank_filter_disables_market_alerts_witness :
  FILTER_MARKETS (load_config ascii_runtime (Some "-1001") (Some " , ,")) = [].
Proof.
  refine (proj1 (X17_blank_filter_disables_market_alerts ascii_runtime (Some "-1001")
                   " , ," filter_env [] [] filter_state _)).
  repeat constructor.
Defined.

Lemma rstrip_dash_app_dash s : rstrip_dash (s ++ "-") = rstrip_dash s.
Proof. induction s as [|c r IH]; [done|]. simpl. by rewrite IH. Qed.

(** X18. The first line of the market message names the configured quote
    currencies without the dash of their prefix: for prefixes [n ++ "-"]
    whose names [n] do not end in a dash, it lists the names, joined by
    commas. *)
Theorem X18_header_lists_currency_names chat names lines :
  Forall (λ n, rstrip_dash n = n) names →
  markets_text {| CHAT_ID := chat; FILTER_MARKETS := map (λ n, n ++ "-") names |} lines
  = "🆕 Upbit: новые рынки (" ++ String.concat "," names ++ ")
" ++ String.concat "
" lines ++ "

Источник API: https://api.upbit.com/v1/market/all".
Proof.
  intros Hall. unfold markets_text. cbn [FILTER_MARKETS].
  assert (map rstrip_dash (map (λ n, n ++ "-") names) = names) as ->; [|done].
  induction Hall as [|n rest Hn _ IH]; [done|].
  cbn [map]. by rewrite rstrip_dash_app_dash, Hn, IH.
Qed.

Lemma X18_header_lists_currency_names_witness :
  markets_text filter_cfg ["• KRW-ETH — Ethereum / "]
  = "🆕 Upbit: новые рынки (KRW,USDT)
• KRW-ETH — Ethereum / 

Источник API: https://api.upbit.com/v1/market/all".
Proof.
  apply (X18_header_lists_currency_names (Some "-1001") ["KRW"; "USDT"]).
  repeat constructor.
Defined.

(** ** Codes that disappear from the catalogue *)

(** X19. A fetch that shows no unknown code changes nothing on the market
    side, even when known codes are missing from it: the known-market set
    keeps them, the document is not written, [notify_new_markets] is not
    called, and the cycle ends with [ok = true]. *)
Theorem X19_delisting_alone_is_ignored rt cfg env markets codes s :
  markets_resp env = inr markets →
  market_codes markets = Ok codes →
  list_to_set codes ⊆ known_markets s →
  let s' := cycle rt cfg env s in
  markets_step rt cfg env s = (Ok true, s)
  ∧ known_markets s' = known_markets s
  ∧ cache_file s' = cache_file s
  ∧ last_cycle_ok s' = true
  ∧ (∀ new, NotifyNewMarkets new ∈ journal s' → NotifyNewMarkets new ∈ journal s).
Proof.
  intros Hresp Hc Hsub s'.
  pose proof (markets_step_settled_ok rt cfg env markets codes s Hresp Hc Hsub) as E1.
  destruct (cycle_markets_side rt cfg env s _ _ E1) as [Hk Hf].
  destruct (cycle_status rt cfg env s) as [Hs _].
  unfold markets_ok in Hs. rewrite E1 in Hs.
  split; [done|]. split; [done|]. split; [done|]. split; [done|].
  intros new Hin.
  destruct (notices_step_effect rt cfg env s) as (b2 & s2 & E2 & _ & _ & Hn).
  assert (journal s' = journal s2) as J.
  { unfold s', cycle, cycle_body, bind. by rewrite E1, E2. }
  rewrite J in Hin. destruct Hn as [(Jn & _)|(_ & _ & Jn & _)];
    rewrite Jn in Hin; [done|].
  apply elem_of_app in Hin as [?|Hin]; [done|].
  unfold new_notices_events in Hin. apply elem_of_cons in Hin as [?|Hin]; [done|].
  destruct (fresh_notices rt env s); [by apply elem_of_nil in Hin|].
  by apply send_events_only_sends in Hin.
Qed.

(** After the filter scenario, a catalogue that has shrunk to KRW-BTC. *)
Lemma X19_delisting_alone_is_ignored_witness :
  let s := cycle ascii_runtime filter_cfg filter_env filter_state in
  known_markets (cycle ascii_runtime filter_cfg twin_env s) = known_markets s.
Proof.
  refine (proj1 (proj2
    (X19_delisting_alone_is_ignored ascii_runtime filter_cfg twin_env _ ["KRW-BTC"]
       (cycle ascii_runtime filter_cfg filter_env filter_state) eq_refl _ _))).
  - vm_compute. reflexivity.
  - apply (bool_decide_unpack _). vm_compute. exact I.
Defined.
